(** * Fairbuds QXW protocol engine: a shallow embedding of [web/fairbuds.js]

    The development follows the JavaScript source function by function.
    Byte arrays ([Uint8Array]) are lists of integers, JavaScript numbers that
    can be fractional are binary64 floats, and the side effects of the
    handlers (log lines, the info card of the page, frames written to the
    BLE characteristic) are fields of an explicit [state] record that every
    handler receives and returns.  The script exists in a second copy that
    adds the custom presets ([applyCustomPreset]); the functions the two
    copies share are the same text. *)

From Stdlib Require Import ZArith List Bool Lia String Ascii Floats.
Import ListNotations.

Set Warnings "-inexact-float".

Local Open Scope Z_scope.

(* ====================================================================== *)
(** ** The fragment of the JavaScript runtime the program relies on *)
(* ====================================================================== *)

Module JS.

(** Exceptions the modelled operations can raise; [DOMException] is the
    rejection of a Web Bluetooth promise. *)
Inductive error : Type :=
| TypeError
| RangeError
| DOMException.

(** A computation either completes with a value or throws. *)
Inductive result (A : Type) : Type :=
| Ok (a : A)
| Throw (e : error).
Arguments Ok {A} a.
Arguments Throw {A} e.

Definition bind {A B : Type} (r : result A) (k : A -> result B) : result B :=
  match r with
  | Ok a => k a
  | Throw e => Throw e
  end.

(** *** Uint8Array *)

(** A typed array of bytes; every element is kept in [0, 256). *)
Definition Uint8Array : Type := list Z.

Definition byte (b : Z) : Prop := 0 <= b < 256.

(** [a.length] *)
Definition len {A : Type} (a : list A) : Z := Z.of_nat (List.length a).

(** ToUint8 of an integral Number: the value modulo 2^8. *)
Definition ToUint8 (n : Z) : Z := n mod 256.

(** [new Uint8Array(n)]: [n] zero bytes. *)
Definition alloc (n : Z) : Uint8Array := repeat 0 (Z.to_nat n).

(** [a[i]] as an r-value; [None] is [undefined] (index out of range). *)
Definition get (a : Uint8Array) (i : Z) : option Z :=
  if i <? 0 then None else nth_error a (Z.to_nat i).

Fixpoint replace_nth (a : list Z) (i : nat) (v : Z) : list Z :=
  match a, i with
  | [], _ => []
  | _ :: rest, O => v :: rest
  | x :: rest, S j => x :: replace_nth rest j v
  end.

(** [a[i] = v] on a typed array: the value is converted with ToUint8; a
    store outside the array is ignored (typed arrays never grow). *)
Definition store (a : Uint8Array) (i : Z) (v : Z) : Uint8Array :=
  if i <? 0 then a else replace_nth a (Z.to_nat i) (ToUint8 v).

(** Relative index of [slice]: negative counts from the end, and the
    result is clamped to [0, length]. *)
Definition rel_index (n k : Z) : Z :=
  if k <? 0 then Z.max (n + k) 0 else Z.min k n.

(** [a.slice(start, stop)] *)
Definition slice (a : Uint8Array) (start stop : Z) : Uint8Array :=
  let from := rel_index (len a) start in
  let to := rel_index (len a) stop in
  firstn (Z.to_nat (to - from)) (skipn (Z.to_nat from) a).

(** [a.slice(start)] *)
Definition slice_from (a : Uint8Array) (start : Z) : Uint8Array :=
  slice a start (len a).

(** [buf.set(src, offset)]: copies [src] into [buf] at [offset]; throws a
    RangeError when the source does not fit. *)
Definition set (buf src : Uint8Array) (offset : Z) : result Uint8Array :=
  if len buf <? offset + len src then Throw RangeError
  else Ok (firstn (Z.to_nat offset) buf
           ++ map ToUint8 src
           ++ skipn (Z.to_nat (offset + len src)) buf).

(** *** Comparisons against a possibly undefined element *)

(** [v === n] for a number [n]. *)
Definition strict_eq (v : option Z) (n : Z) : bool :=
  match v with
  | Some x => x =? n
  | None => false
  end.

(** [v !== n] *)
Definition strict_neq (v : option Z) (n : Z) : bool := negb (strict_eq v n).

(** [String.fromCharCode(b)] for a code unit below 256. *)
Definition fromCharCode (b : Z) : string :=
  String (ascii_of_N (Z.to_N b)) EmptyString.

(** *** Numbers

    A JavaScript Number is an IEEE 754 binary64 value: the primitive
    [float] of the kernel, whose [*], [+], [-], [/] and comparisons are the
    ones of the hardware.  [Prim2SF] exposes sign, mantissa and exponent,
    from which the operations without a primitive are computed exactly. *)

(** The Number of an integer of magnitude below 2^53, which binary64 holds
    exactly. *)
Definition of_Z (z : Z) : float :=
  if z <? 0 then (- of_uint63 (Uint63.of_Z (- z)))%float
  else of_uint63 (Uint63.of_Z z).

(** [Math.round(x)]: the integral Number closest to [x], a tie going
    towards +infinity; NaN, the infinities and the zeros are returned as
    they are, and a result of zero keeps the sign of [x].  A Number with a
    non-negative exponent is integral already; otherwise its magnitude
    is below 2^53 and the value m * 2^e is rounded as floor(x + 1/2)
    in the integers. *)
Definition Math_round (x : float) : float :=
  match Prim2SF x with
  | S754_finite s m e =>
      if 0 <=? e then x
      else
        let d := Z.pow 2 (- e) in
        let v := if s then Z.neg m else Z.pos m in
        let r := (2 * v + d) / (2 * d) in
        if r =? 0 then (if s then neg_zero else zero)
        else of_Z r
  | _ => x
  end.

(** [Math.min(a, b)]: NaN if an argument is NaN, and -0 is below +0. *)
Definition Math_min (a b : float) : float :=
  if is_nan a || is_nan b then nan
  else if (a <? b)%float then a
  else if (b <? a)%float then b
  else if get_sign a then a else b.

(** [Math.max(a, b)] *)
Definition Math_max (a b : float) : float :=
  if is_nan a || is_nan b then nan
  else if (a <? b)%float then b
  else if (b <? a)%float then a
  else if get_sign a then b else a.

(** ToUint8 of an arbitrary Number: NaN, the zeros and the infinities give
    0, any other value is truncated towards zero and reduced modulo 2^8. *)
Definition Number_ToUint8 (x : float) : Z :=
  match Prim2SF x with
  | S754_finite s m e =>
      let t := if 0 <=? e then Z.pos m * Z.pow 2 e
               else Z.pos m / Z.pow 2 (- e) in
      (if s then - t else t) mod 256
  | _ => 0
  end.

(** *** Arrays of Numbers

    A read outside the array gives [undefined], which every use in the
    program converts to a Number, that is to NaN; a write past the end
    grows the array, the skipped elements being holes that read as
    [undefined] too. *)
Definition array_get (a : list float) (i : nat) : float := nth i a nan.

Fixpoint array_replace (a : list float) (i : nat) (v : float) : list float :=
  match a, i with
  | [], _ => []
  | _ :: rest, O => v :: rest
  | x :: rest, S j => x :: array_replace rest j v
  end.

Definition array_set (a : list float) (i : nat) (v : float) : list float :=
  if (i <? List.length a)%nat then array_replace a i v
  else a ++ repeat nan (i - List.length a) ++ [v].

(** [a[i] = x] on a typed array, for an arbitrary Number [x]. *)
Definition store_number (a : Uint8Array) (i : Z) (x : float) : Uint8Array :=
  if i <? 0 then a else replace_nth a (Z.to_nat i) (Number_ToUint8 x).

End JS.

Import JS.

Notation "x <- r ;; k" := (JS.bind r (fun x => k))
  (at level 61, r at next level, right associativity).

(* ====================================================================== *)
(** ** Protocol constants *)
(* ====================================================================== *)

Definition QXW_PREFIX : list Z := [0x51; 0x58; 0x57].

Definition CMD_SELECT_EQ : Z := 0x10.
Definition CMD_CUSTOM_EQ : Z := 0x20.
Definition CMD_DEVICE_INFO : Z := 0x27.

Definition TYPE_REQUEST : Z := 0x01.
Definition TYPE_NOTIFY : Z := 0x03.

Definition FREQUENCIES : list Z := [60; 100; 230; 500; 1100; 2400; 5400; 12000].
Definition NUM_BANDS : nat := List.length FREQUENCIES.

(* ====================================================================== *)
(** ** QXW packet builder *)
(* ====================================================================== *)

(** [buildPacket(cmd, type, payload)]; a [null] payload is [None]. *)
Definition buildPacket (cmd type : Z) (payload : option Uint8Array)
  : result Uint8Array :=
  let pLen := match payload with Some p => len p | None => 0 end in
  let buf := alloc (3 + 1 + 1 + 1 + pLen) in
  let buf := store buf 0 (nth 0 QXW_PREFIX 0) in
  let buf := store buf 1 (nth 1 QXW_PREFIX 0) in
  let buf := store buf 2 (nth 2 QXW_PREFIX 0) in
  let buf := store buf 3 cmd in
  let buf := store buf 4 type in
  let buf := store buf 5 pLen in
  match payload with
  | Some p => set buf p 6
  | None => Ok buf
  end.

(* ====================================================================== *)
(** ** Program state *)
(* ====================================================================== *)

(** What the device-info handler shows on the info card: [batteryLeft] and
    [batteryRight] are the page's [#bat-left] and [#bat-right] texts without
    the percent sign, [deviceName] is the text of [#device-name]. *)
Record device_info : Type := {
  batteryLeft : option Z;
  batteryRight : option Z;
  deviceName : string
}.

(** The lines [log] can append, one constructor per message template of the
    source. *)
Inductive log_line : Type :=
| ErrorNotConnected                  (* "Error: not connected" *)
| TX (data : Uint8Array)             (* "TX → " + hexStr(data) *)
| RX (value : Uint8Array)            (* "RX ← " + hexStr(value) *)
| CustomEqApplied                    (* "Custom EQ applied" *)
| CustomPresetApplied (name : string) (* `Custom preset "${preset.name}" applied` *)
| UnknownPacket                      (* "Unknown packet (no QXW prefix)" *)
| PresetChangeConfirmed              (* "Preset change confirmed" *)
| CustomEqConfirmed                  (* "Custom EQ confirmed" *)
| UnknownCommand (cmd : Z)           (* `Unknown command: 0x${cmd.toString(16)}` *)
| PayloadTooShort                    (* "Device info payload too short" *)
| Battery (info : device_info).      (* `Battery: L=..% R=..%` and the name *)

(** The mutable variables of the script together with the parts of the page
    and of the BLE link it writes to. *)
Record state : Type := {
  writeChar : bool;               (* [false] when the variable is null *)
  written : list Uint8Array;      (* frames handed to writeValueWithoutResponse *)
  bandGains : list float;
  bandQs : list float;
  logEl : list log_line;          (* the lines of the log element, oldest first *)
  infoCard : option device_info   (* [None] while the card is hidden *)
}.

(** [log(msg)] *)
Definition log (msg : log_line) (st : state) : state :=
  {| writeChar := writeChar st;
     written := written st;
     bandGains := bandGains st;
     bandQs := bandQs st;
     logEl := logEl st ++ [msg];
     infoCard := infoCard st |}.

(** The four writes under "Update UI" in [parseDeviceInfo]. *)
Definition updateInfoCard (info : device_info) (st : state) : state :=
  {| writeChar := writeChar st;
     written := written st;
     bandGains := bandGains st;
     bandQs := bandQs st;
     logEl := logEl st;
     infoCard := Some info |}.

(* ====================================================================== *)
(** ** Notification handler *)
(* ====================================================================== *)

(** The inner loop of the name extraction: it walks [nameBytes], gives up
    at the first byte outside 0x20..0x7e and otherwise appends the character
    to [name].  The result is the pair of the variables [valid] and [name]
    when the loop ends. *)
Fixpoint nameLoop (nameBytes : list Z) (name : string) : bool * string :=
  match nameBytes with
  | [] => (true, name)
  | b :: rest =>
      if (b <? 0x20) || (b >? 0x7e) then (false, name)
      else nameLoop rest (name ++ fromCharCode b)
  end.

(** The backward scan [for (let i = payload.length - 1; i >= 5; i--)].
    The argument is [i + 1]; the result is [deviceName] after the loop. *)
Fixpoint scanName (payload : Uint8Array) (next : nat) : string :=
  match next with
  | O => EmptyString
  | S k =>
      let i := Z.of_nat k in
      if i >=? 5 then
        match get payload i with
        | Some nameLen =>
            if (nameLen >? 0) && (nameLen <? 32)
               && (i + 1 + nameLen <=? len payload)
            then
              let nameBytes := slice payload (i + 1) (i + 1 + nameLen) in
              let '(valid, name) := nameLoop nameBytes EmptyString in
              if valid && (Z.of_nat (String.length name) =? nameLen)
              then name
              else scanName payload k
            else scanName payload k
        | None => scanName payload k
        end
      else EmptyString
  end.

(** [parseDeviceInfo(payload)] *)
Definition parseDeviceInfo (payload : Uint8Array) (st : state) : state :=
  if len payload <? 5 then log PayloadTooShort st
  else
    let info := {| batteryLeft := get payload 2;
                   batteryRight := get payload 3;
                   deviceName := scanName payload (List.length payload) |} in
    updateInfoCard info (log (Battery info) st).

(** [onNotification(event)], where [value] holds the bytes of the event.
    The only operation that can throw is [cmd.toString(16)] on an undefined
    [cmd]. *)
Definition onNotification (value : Uint8Array) (st : state) : result state :=
  let st := log (RX value) st in
  if (len value <? 5)
     || strict_neq (get value 0) 0x51
     || strict_neq (get value 1) 0x58
     || strict_neq (get value 2) 0x57
  then Ok (log UnknownPacket st)
  else
    let cmd := get value 3 in
    if strict_eq cmd CMD_DEVICE_INFO && strict_eq (get value 4) 0x02 then
      Ok (parseDeviceInfo (slice_from value 5) st)
    else if strict_eq cmd CMD_SELECT_EQ then
      Ok (log PresetChangeConfirmed st)
    else if strict_eq cmd CMD_CUSTOM_EQ then
      Ok (log CustomEqConfirmed st)
    else
      match cmd with
      | Some c => Ok (log (UnknownCommand c) st)
      | None => Throw TypeError
      end.

(** The event a notification is decoded to: what the handler adds to the
    log after the raw [RX] trace, and the info card it leaves. *)
Definition decode (value : Uint8Array) (st : state)
  : result (list log_line * option device_info) :=
  st' <- onNotification value st ;;
  Ok (skipn (S (List.length (logEl st))) (logEl st'), infoCard st').

(* ====================================================================== *)
(** ** Gain and Q encoding *)
(* ====================================================================== *)

Definition GAIN_OFFSET : float := 120%float.
Definition GAIN_SCALE : float := 10%float.
Definition GAIN_MIN_DB : float := (-12.0)%float.
Definition GAIN_MAX_DB : float := 13.5%float.
Definition DEFAULT_Q : float := 7%float.

(** [encodeGain(db)] *)
Definition encodeGain (db : float) : float :=
  let encoded := (Math_round (db * GAIN_SCALE) + GAIN_OFFSET)%float in
  Math_max 0 (Math_min 255 encoded).

(** [decodeGain(byteVal)] *)
Definition decodeGain (byteVal : float) : float :=
  ((byteVal - GAIN_OFFSET) / GAIN_SCALE)%float.

(** The Q conversion, written inline in [applyCustomPreset]:
    [Math.max(0, Math.min(255, Math.round(qReal * 10)))]. *)
Definition encodeQ (qReal : float) : float :=
  Math_max 0 (Math_min 255 (Math_round (qReal * 10))).

(* ====================================================================== *)
(** ** Commands *)
(* ====================================================================== *)

(** The state the script starts in: not connected, all bands flat. *)
Definition initial : state :=
  {| writeChar := false;
     written := [];
     bandGains := repeat GAIN_OFFSET NUM_BANDS;
     bandQs := repeat DEFAULT_Q NUM_BANDS;
     logEl := [];
     infoCard := None |}.

(** [writeChar.writeValueWithoutResponse(data)]: the link is outside the
    program, so whether the promise resolves is the input [accepted].  An
    accepted frame is recorded in [written]; a rejected one makes the
    [await] throw. *)
Definition writeValueWithoutResponse (accepted : bool) (data : Uint8Array)
  (st : state) : result state :=
  if accepted then
    Ok {| writeChar := writeChar st;
          written := written st ++ [data];
          bandGains := bandGains st;
          bandQs := bandQs st;
          logEl := logEl st;
          infoCard := infoCard st |}
  else Throw DOMException.

(** [sendCommand(data)]; [accepted] is the outcome of the write it awaits.
    The delay that follows an accepted write has no effect on the state. *)
Definition sendCommand (accepted : bool) (data : Uint8Array) (st : state)
  : result state :=
  if negb (writeChar st) then Ok (log ErrorNotConnected st)
  else writeValueWithoutResponse accepted data (log (TX data) st).

(** The loop [for (let i = 0; i < NUM_BANDS; i++)] of [sendCustomEQ];
    [todo] counts the iterations left and [i] is the loop variable. *)
Fixpoint fillBands (gains qs : list float) (todo : nat) (i : nat)
  (payload : Uint8Array) : Uint8Array :=
  match todo with
  | O => payload
  | S todo' =>
      let payload := store payload (Z.of_nat i * 3) (Z.of_nat i) in
      let payload :=
        store_number payload (Z.of_nat i * 3 + 1) (array_get gains i) in
      let payload :=
        store_number payload (Z.of_nat i * 3 + 2) (array_get qs i) in
      fillBands gains qs todo' (S i) payload
  end.

(** The payload [sendCustomEQ] builds from the band state. *)
Definition customEqPayload (st : state) : Uint8Array :=
  fillBands (bandGains st) (bandQs st) NUM_BANDS 0
    (alloc (Z.of_nat NUM_BANDS * 3)).

(** [sendCustomEQ()]; [accepted] is the outcome of the one write. *)
Definition sendCustomEQ (accepted : bool) (st : state) : result state :=
  let payload := customEqPayload st in
  pkt <- buildPacket CMD_CUSTOM_EQ TYPE_NOTIFY (Some payload) ;;
  st' <- sendCommand accepted pkt st ;;
  Ok (log CustomEqApplied st').

(** A band edit stores into both arrays. *)
Definition storeBand (i : nat) (gain q : float) (st : state) : state :=
  {| writeChar := writeChar st;
     written := written st;
     bandGains := array_set (bandGains st) i gain;
     bandQs := array_set (bandQs st) i q;
     logEl := logEl st;
     infoCard := infoCard st |}.

(** The loop of [applyCustomPreset] over [preset.bands]; destructuring a
    missing entry throws a TypeError. *)
Fixpoint applyBands (bands : list (float * float)) (todo : nat) (i : nat)
  (st : state) : result state :=
  match todo with
  | O => Ok st
  | S todo' =>
      match nth_error bands i with
      | None => Throw TypeError
      | Some (gainDb, qReal) =>
          let clampedGain := Math_max GAIN_MIN_DB (Math_min GAIN_MAX_DB gainDb) in
          applyBands bands todo' (S i)
            (storeBand i (encodeGain clampedGain) (encodeQ qReal) st)
      end
  end.

(** [applyCustomPreset(preset)]; the sliders it refreshes in between are
    not part of the state, and [accepted] is the outcome of the one write. *)
Definition applyCustomPreset (accepted : bool) (name : string)
  (bands : list (float * float)) (st : state) : result state :=
  st1 <- applyBands bands NUM_BANDS 0 st ;;
  st2 <- sendCustomEQ accepted st1 ;;
  Ok (log (CustomPresetApplied name) st2).

(** Modelled from the spec: [setBand(index, gainDb, qReal)] of EqState, which
    the script does not have as a function of its own (its band edits are
    the slider handler and [applyCustomPreset]).  It fails with a RangeError
    if [index] is outside 0..7 and otherwise stores [encodeGain(gainDb)] and
    [encodeQ(qReal)] for that band. *)
Definition setBand (index : Z) (gainDb qReal : float) (st : state)
  : result state :=
  if (index <? 0) || (7 <? index) then Throw RangeError
  else Ok (storeBand (Z.to_nat index) (encodeGain gainDb) (encodeQ qReal) st).

(* ====================================================================== *)
(** ** The name extraction in the words of the specification *)
(* ====================================================================== *)

(** Printable ASCII. *)
Definition spec_printable (b : Z) : Prop := 0x20 <= b <= 0x7e.

(** Index [i] holds an acceptable length prefix [nameLen]. *)
Definition spec_accepts (payload : Uint8Array) (i nameLen : Z) : Prop :=
  get payload i = Some nameLen
  /\ 0 < nameLen < 32
  /\ i + 1 + nameLen <= len payload
  /\ Forall spec_printable (slice payload (i + 1) (i + 1 + nameLen)).

(** The bytes of a name read as characters. *)
Fixpoint spec_decode_name (bs : list Z) : string :=
  match bs with
  | [] => EmptyString
  | b :: rest => String (ascii_of_N (Z.to_N b)) (spec_decode_name rest)
  end.

(* ====================================================================== *)
(** ** Auxiliary notions for the statements about Numbers *)
(* ====================================================================== *)

(** A Number that is neither NaN, nor an infinity, nor a zero. *)
Definition finite (y : float) : Prop :=
  exists s m e, Prim2SF y = S754_finite s m e.

(** The integers k with 0 <= k + 120 <= 255, that is the values of
    round(dB * 10) for which [encodeGain] does not clamp. *)
Definition unclamped : list Z := map (fun n => Z.of_nat n - 120) (seq 0 256).

(** The exact value of a Number as a fraction [n / d] with [d > 0]; NaN and
    the infinities have none. *)
Definition Number_fraction (x : float) : option (Z * Z) :=
  match Prim2SF x with
  | S754_zero _ => Some (0, 1)
  | S754_finite s m e =>
      let v := if s then Z.neg m else Z.pos m in
      Some (if 0 <=? e then (v * Z.pow 2 e, 1) else (v, Z.pow 2 (- e)))
  | _ => None
  end.

(** The two rounding modes the specification allows, on the fraction
    [n / d] with [d > 0]. *)
Definition spec_round_half_away (n d : Z) : Z :=
  Z.sgn n * ((2 * Z.abs n + d) / (2 * d)).

Definition spec_round_half_even (n d : Z) : Z :=
  let f := n / d in
  let r := 2 * (n mod d) in
  if r <? d then f
  else if d <? r then f + 1
  else if Z.even f then f else f + 1.

(** The specification's [encodeGain] on the real [n / d], for a rounding
    mode [round]: round(dB * 10) + 120, clamped to [0, 255]. *)
Definition spec_encodeGain (round : Z -> Z -> Z) (n d : Z) : Z :=
  Z.max 0 (Z.min 255 (round (10 * n) d + 120)).

(* ====================================================================== *)
(** ** Helpers: hexadecimal dump *)
(* ====================================================================== *)

Definition hexDigits : list ascii :=
  ["0"; "1"; "2"; "3"; "4"; "5"; "6"; "7";
   "8"; "9"; "a"; "b"; "c"; "d"; "e"; "f"]%char.

Definition hexDigit (d : Z) : ascii := nth (Z.to_nat d) hexDigits "0"%char.

(** The digits of a non-negative integer in base 16, most significant
    first; [fuel] bounds the number of digits. *)
Fixpoint toString16_digits (fuel : nat) (n : Z) : string :=
  match fuel with
  | O => EmptyString
  | S fuel' =>
      if n <? 16 then String (hexDigit n) EmptyString
      else (toString16_digits fuel' (n / 16)
            ++ String (hexDigit (n mod 16)) EmptyString)%string
  end.

(** [n.toString(16)] for an integral Number [n]. *)
Definition toString16 (n : Z) : string :=
  if n <? 0
  then String "-"%char (toString16_digits (S (Z.to_nat (Z.log2 (- n)))) (- n))
  else toString16_digits (S (Z.to_nat (Z.log2 n))) n.

Fixpoint repeat_char (c : ascii) (n : nat) : string :=
  match n with
  | O => EmptyString
  | S n' => String c (repeat_char c n')
  end.

(** [s.padStart(target, pad)] for a one-character [pad]. *)
Definition padStart (s : string) (target : nat) (pad : ascii) : string :=
  (repeat_char pad (target - String.length s) ++ s)%string.

(** [parts.join(sep)] *)
Fixpoint join (sep : string) (parts : list string) : string :=
  match parts with
  | [] => EmptyString
  | [s] => s
  | s :: rest => (s ++ sep ++ join sep rest)%string
  end.

(** [hexStr(bytes)] *)
Definition hexStr (bytes : Uint8Array) : string :=
  join " " (map (fun b => padStart (toString16 b) 2 "0"%char) bytes).

(* ====================================================================== *)
(** ** Further commands and band edits *)
(* ====================================================================== *)

(** [requestDeviceInfo()]; [accepted] is the outcome of the one write. *)
Definition requestDeviceInfo (accepted : bool) (st : state) : result state :=
  pkt <- buildPacket CMD_DEVICE_INFO TYPE_REQUEST None ;;
  sendCommand accepted pkt st.

(** The loop of [resetSliders]; the slider and label refresh it also does
    is not part of the state. *)
Fixpoint resetLoop (todo : nat) (i : nat) (st : state) : state :=
  match todo with
  | O => st
  | S todo' => resetLoop todo' (S i) (storeBand i GAIN_OFFSET DEFAULT_Q st)
  end.

(** [resetSliders()] *)
Definition resetSliders (st : state) : state := resetLoop NUM_BANDS 0 st.

(** The "input" handler of slider [idx]: [idx] and [value] are the integers
    the two [parseInt] calls return for the slider's band index and for its
    position, and the handler stores the position as the band's gain. *)
Definition sliderInput (idx : nat) (value : Z) (st : state) : state :=
  {| writeChar := writeChar st;
     written := written st;
     bandGains := array_set (bandGains st) idx (of_Z value);
     bandQs := bandQs st;
     logEl := logEl st;
     infoCard := infoCard st |}.

(* ====================================================================== *)
(** ** Custom presets *)
(* ====================================================================== *)

Module Preset.

(** An entry of [CUSTOM_PRESETS]; [recommended] is false where the entry
    does not have the property. *)
Record t : Type := Build {
  name : string;
  recommended : bool;
  bands : list (float * float)
}.

End Preset.

Definition CUSTOM_PRESETS : list Preset.t := [
  Preset.Build "app10k" false
    [(3.0, 0.71); ((-0.9), 0.71); ((-4.1), 0.71); ((-0.4), 0.71); ((-5.5), 0.71); (10.0, 0.71); ((-1.4), 0.71); (3.7, 0.71)]%float;
  Preset.Build "app12.5k" false
    [(2.9, 0.71); ((-0.8), 0.71); ((-4.0), 0.71); ((-0.6), 0.71); ((-5.1), 0.71); (10.0, 0.71); ((-3.6), 0.71); (10.0, 0.71)]%float;
  Preset.Build "app12k" false
    [(2.9, 0.71); ((-0.8), 0.71); ((-4.0), 0.71); ((-0.6), 0.71); ((-5.1), 0.71); (10.0, 0.71); ((-3.7), 0.71); (10.0, 0.71)]%float;
  Preset.Build "app15k" false
    [(2.9, 0.71); ((-0.8), 0.71); ((-4.1), 0.71); ((-0.5), 0.71); ((-5.2), 0.71); (10.0, 0.71); ((-3.4), 0.71); (10.0, 0.71)]%float;
  Preset.Build "main-ish" false
    [((-1.0), 0.71); (1.0, 0.71); (2.0, 0.71); (3.5, 0.71); (1.0, 0.71); ((-3.0), 0.71); (1.0, 0.71); (1.0, 0.71)]%float;
  Preset.Build "max10k" false
    [((-4.5), 0.14); (8.4, 0.20); ((-7.8), 0.51); (0.6, 3.93); ((-10.8), 0.65); (13.5, 0.39); ((-5.5), 1.30); ((-5.0), 8.38)]%float;
  Preset.Build "max11k" false
    [((-2.8), 0.10); (9.0, 0.29); ((-10.6), 0.37); (0.4, 4.15); ((-11.3), 0.82); (13.5, 0.21); ((-8.8), 1.20); (1.6, 12.10)]%float;
  Preset.Build "max12.5k" false
    [(0.0, 0.23); (6.6, 0.45); ((-12.0), 0.36); ((-1.6), 4.80); ((-11.7), 0.84); (13.5, 0.13); ((-10.4), 1.21); (4.3, 16.45)]%float;
  Preset.Build "max12k" false
    [((-1.3), 0.10); (7.9, 0.36); ((-12.0), 0.37); ((-1.3), 4.71); ((-11.5), 0.84); (13.5, 0.15); ((-10.0), 1.18); (3.0, 14.78)]%float;
  Preset.Build "max13.3k" false
    [((-0.8), 0.10); (6.9, 0.42); ((-12.0), 0.37); ((-1.5), 5.57); ((-11.7), 0.78); (13.5, 0.12); ((-10.5), 1.24); (5.2, 17.26)]%float;
  Preset.Build "max15k" false
    [((-2.3), 0.10); (7.2, 0.36); ((-12.0), 0.42); ((-2.9), 6.16); ((-12.0), 0.74); (13.5, 0.10); ((-10.6), 1.26); (3.3, 14.84)]%float;
  Preset.Build "max20k" false
    [((-1.0), 0.10); (6.5, 0.46); ((-12.0), 0.39); ((-1.4), 4.94); ((-12.0), 0.74); (13.5, 0.10); ((-10.7), 1.34); (8.9, 11.56)]%float;
  Preset.Build "pre10k" false
    [((-11.6), 0.10); (0.1, 2.88); (4.7, 0.10); ((-8.5), 0.26); ((-1.6), 6.64); (8.0, 1.09); ((-8.4), 0.10); (7.2, 2.67)]%float;
  Preset.Build "rtings" false
    [((-1.3), 0.10); (3.6, 5.32); (4.4, 0.10); (0.1, 24.95); ((-12.0), 0.10); (4.8, 17.00); ((-10.1), 1.70); (12.8, 0.10)]%float;
  Preset.Build "rtings_app" false
    [(3.5, 0.71); (1.3, 0.71); ((-10.0), 0.71); (0.0, 0.71); ((-8.1), 0.71); (10.0, 0.71); ((-9.8), 0.71); (6.0, 0.71)]%float;
  Preset.Build "rtings_app_studio" false
    [(2.5, 0.71); (2.3, 0.71); ((-8.0), 0.71); (3.5, 0.71); ((-7.1), 0.71); (7.0, 0.71); ((-8.8), 0.71); (7.0, 0.71)]%float;
  Preset.Build "rtings_studio" true
    [((-3.3), 0.10); (3.6, 5.32); (5.4, 0.10); (2.6, 24.95); ((-12.0), 0.10); ((-1.8), 17.00); ((-10.1), 1.70); (12.8, 0.10)]%float;
  Preset.Build "senorbackdoor" false
    [(8.0, 0.7); ((-2.0), 0.7); ((-5.0), 0.7); (2.0, 0.7); ((-2.0), 0.7); (8.0, 0.7); (1.0, 0.7); (11.0, 0.7)]%float
].

(** [applyCustomPreset] on an entry of the table, as the preset buttons
    call it. *)
Definition applyPreset (accepted : bool) (p : Preset.t) (st : state)
  : result state :=
  applyCustomPreset accepted (Preset.name p) (Preset.bands p) st.

(** The gain clamp of [applyCustomPreset]. *)
Definition clampGain (gainDb : float) : float :=
  Math_max GAIN_MIN_DB (Math_min GAIN_MAX_DB gainDb).

(* ====================================================================== *)
(** ** Auxiliary notions for the statements about the band state *)
(* ====================================================================== *)

(** Both band arrays have one entry per band. *)
Definition bands_ok (st : state) : Prop :=
  List.length (bandGains st) = NUM_BANDS /\ List.length (bandQs st) = NUM_BANDS.

(** The integers 0..255. *)
Definition bytes256 : list Z := map Z.of_nat (seq 0 256).

(** A string of printable ASCII characters. *)
Definition printable_string (s : string) : Prop :=
  Forall (fun c => (32 <= nat_of_ascii c <= 126)%nat) (list_ascii_of_string s).

(* ====================================================================== *)
(** ** Facts about the runtime fragment *)
(* ====================================================================== *)

Lemma ToUint8_byte (b : Z) : byte b -> ToUint8 b = b.
Proof. unfold byte, ToUint8. intros H. apply Z.mod_small. exact H. Qed.

Lemma map_ToUint8_bytes (p : Uint8Array) : Forall byte p -> map ToUint8 p = p.
Proof.
  induction 1 as [|b p Hb _ IH]; simpl.
  - reflexivity.
  - rewrite ToUint8_byte by exact Hb. rewrite IH. reflexivity.
Qed.

Lemma len_app {A : Type} (a b : list A) : len (a ++ b) = len a + len b.
Proof. unfold len. rewrite length_app. lia. Qed.

Lemma len_nonneg {A : Type} (a : list A) : 0 <= len a.
Proof. unfold len. lia. Qed.

Lemma get_in_range (a : Uint8Array) (i : Z) :
  0 <= i < len a -> exists b, get a i = Some b /\ nth (Z.to_nat i) a 0 = b.
Proof.
  unfold get, len. intros H.
  destruct (i <? 0) eqn:E; [apply Z.ltb_lt in E; lia|].
  destruct (nth_error a (Z.to_nat i)) as [b|] eqn:N.
  - exists b. split; [reflexivity|]. apply nth_error_nth. exact N.
  - apply nth_error_None in N. lia.
Qed.

(** The frame [buildPacket] returns, whatever the arguments are. *)
Lemma buildPacket_frame (cmd type : Z) (payload : Uint8Array) :
  buildPacket cmd type (Some payload)
  = Ok ([0x51; 0x58; 0x57; ToUint8 cmd; ToUint8 type; ToUint8 (len payload)]
        ++ map ToUint8 payload).
Proof.
  unfold buildPacket, alloc.
  replace (Z.to_nat (3 + 1 + 1 + 1 + len payload))
    with (6 + List.length payload)%nat by (unfold len; lia).
  unfold store, QXW_PREFIX, nth.
  change (Z.to_nat 0) with 0%nat. change (Z.to_nat 1) with 1%nat.
  change (Z.to_nat 2) with 2%nat. change (Z.to_nat 3) with 3%nat.
  change (Z.to_nat 4) with 4%nat. change (Z.to_nat 5) with 5%nat.
  cbn [Nat.add repeat Z.ltb Z.compare replace_nth].
  change (ToUint8 81) with 81. change (ToUint8 88) with 88.
  change (ToUint8 87) with 87.
  unfold set.
  assert (L : len (81 :: 88 :: 87 :: ToUint8 cmd :: ToUint8 type
                   :: ToUint8 (len payload)
                   :: repeat 0 (List.length payload)) = 6 + len payload).
  { unfold len. cbn [List.length]. rewrite repeat_length. lia. }
  rewrite L.
  destruct (6 + len payload <? 6 + len payload) eqn:E;
    [apply Z.ltb_lt in E; lia|].
  replace (Z.to_nat (6 + len payload)) with (6 + List.length payload)%nat
    by (unfold len; lia).
  change (Z.to_nat 6) with 6%nat.
  cbn [firstn Nat.add skipn app].
  rewrite skipn_all2 by (rewrite repeat_length; lia).
  rewrite app_nil_r. reflexivity.
Qed.

Lemma buildPacket_null (cmd type : Z) :
  buildPacket cmd type None
  = Ok [0x51; 0x58; 0x57; ToUint8 cmd; ToUint8 type; 0].
Proof. reflexivity. Qed.

Lemma five_bytes (v : Uint8Array) :
  5 <= len v -> exists a b c d e rest, v = a :: b :: c :: d :: e :: rest.
Proof.
  unfold len. intros H.
  destruct v as [|a [|b [|c [|d [|e rest]]]]]; cbn [List.length] in H; try lia.
  now exists a, b, c, d, e, rest.
Qed.

Lemma strict_neq_Some (x n : Z) : strict_neq (Some x) n = negb (x =? n).
Proof. reflexivity. Qed.

(** The guard of [onNotification] rejects exactly the short packets and the
    packets with a wrong prefix. *)
Lemma prefix_guard (value : Uint8Array) :
  (len value <? 5)
  || strict_neq (get value 0) 0x51
  || strict_neq (get value 1) 0x58
  || strict_neq (get value 2) 0x57 = true
  <-> (len value < 5 \/ firstn 3 value <> QXW_PREFIX).
Proof.
  destruct (len value <? 5) eqn:L.
  - apply Z.ltb_lt in L. cbn [orb]. split; [intros _; now left|reflexivity].
  - apply Z.ltb_ge in L. cbn [orb].
    destruct (five_bytes value L) as (a & b & c & d & e & rest & ->).
    change (get (a :: b :: c :: d :: e :: rest) 0) with (Some a).
    change (get (a :: b :: c :: d :: e :: rest) 1) with (Some b).
    change (get (a :: b :: c :: d :: e :: rest) 2) with (Some c).
    unfold QXW_PREFIX. cbn [firstn].
    rewrite !strict_neq_Some.
    destruct (Z.eqb_spec a 81) as [A|A]; destruct (Z.eqb_spec b 88) as [B|B];
      destruct (Z.eqb_spec c 87) as [C|C]; cbn [negb orb];
      (split; [intros H; try discriminate H; right; intros E; injection E as E1 E2 E3; auto
              |intros [H|H]; [lia|try reflexivity; subst; now elim H]]).
Qed.

(** A packet that passes the guard reaches the dispatch on byte 3. *)
Lemma onNotification_dispatch (value : Uint8Array) (st : state) :
  5 <= len value -> firstn 3 value = QXW_PREFIX ->
  exists cmd sub,
    get value 3 = Some cmd /\ get value 4 = Some sub /\
    onNotification value st =
    let st' := log (RX value) st in
    if (cmd =? CMD_DEVICE_INFO) && (sub =? 0x02)
    then Ok (parseDeviceInfo (slice_from value 5) st')
    else if cmd =? CMD_SELECT_EQ then Ok (log PresetChangeConfirmed st')
    else if cmd =? CMD_CUSTOM_EQ then Ok (log CustomEqConfirmed st')
    else Ok (log (UnknownCommand cmd) st').
Proof.
  intros L P.
  assert (G : (len value <? 5)
     || strict_neq (get value 0) 0x51
     || strict_neq (get value 1) 0x58
     || strict_neq (get value 2) 0x57 = false).
  { apply not_true_is_false. rewrite prefix_guard. intros [H|H]; [lia|auto]. }
  unfold onNotification. rewrite G. clear G.
  destruct (five_bytes value L) as (a & b & c & d & e & rest & ->).
  exists d, e. split; [reflexivity|]. split; [reflexivity|].
  reflexivity.
Qed.

(* ====================================================================== *)
(** ** Facts about the name extraction *)
(* ====================================================================== *)

Lemma append_String_assoc (s : string) (c : ascii) (t : string) :
  ((s ++ String c EmptyString) ++ t = s ++ String c t)%string.
Proof. induction s as [|a s IH]; simpl; [reflexivity|now rewrite IH]. Qed.

Lemma append_empty_r (s : string) : (s ++ EmptyString)%string = s.
Proof. induction s as [|a s IH]; simpl; [reflexivity|now rewrite IH]. Qed.

Lemma length_append (s t : string) :
  String.length (s ++ t)%string = (String.length s + String.length t)%nat.
Proof. induction s as [|a s IH]; simpl; [reflexivity|now rewrite IH]. Qed.

Lemma length_spec_decode_name (bs : list Z) :
  String.length (spec_decode_name bs) = List.length bs.
Proof. induction bs as [|b bs IH]; simpl; [reflexivity|now rewrite IH]. Qed.

(** When every byte is printable the inner loop runs to the end and has
    appended the whole run. *)
Lemma nameLoop_valid (bs : list Z) (acc : string) :
  Forall spec_printable bs ->
  nameLoop bs acc = (true, (acc ++ spec_decode_name bs)%string).
Proof.
  intros H. revert acc.
  induction H as [|b bs Hb _ IH]; intros acc; simpl.
  - now rewrite append_empty_r.
  - unfold spec_printable in Hb.
    destruct (b <? 32) eqn:E1; [apply Z.ltb_lt in E1; lia|].
    destruct (b >? 126) eqn:E2; [apply Z.gtb_lt in E2; lia|].
    cbn [orb]. rewrite IH. unfold fromCharCode.
    now rewrite append_String_assoc.
Qed.

(** Otherwise it stops with [valid] false. *)
Lemma nameLoop_invalid (bs : list Z) (acc : string) :
  ~ Forall spec_printable bs -> fst (nameLoop bs acc) = false.
Proof.
  revert acc. induction bs as [|b bs IH]; intros acc H; simpl.
  - elim H. constructor.
  - destruct (b <? 32) eqn:E1; [reflexivity|].
    destruct (b >? 126) eqn:E2; [reflexivity|].
    cbn [orb]. apply IH. intros F. apply H. constructor; [|exact F].
    apply Z.ltb_ge in E1. unfold spec_printable.
    destruct (Z.gtb_spec b 126); [discriminate|lia].
Qed.

Lemma slice_length (a : Uint8Array) (from to : Z) :
  0 <= from <= to -> to <= len a ->
  len (slice a from to) = to - from.
Proof.
  intros H1 H2. unfold slice, rel_index.
  destruct (from <? 0) eqn:E1; [apply Z.ltb_lt in E1; lia|].
  destruct (to <? 0) eqn:E2; [apply Z.ltb_lt in E2; lia|].
  rewrite !Z.min_l by lia.
  unfold len in *. rewrite length_firstn, length_skipn. lia.
Qed.

Section NameExtraction.

Variable payload : Uint8Array.

(** One iteration of the backward scan accepts index [k] exactly when the
    specification's predicate holds there. *)
Lemma scanName_step (k : nat) :
  5 <= Z.of_nat k < len payload ->
  (exists nameLen,
      spec_accepts payload (Z.of_nat k) nameLen
      /\ scanName payload (S k)
         = spec_decode_name
             (slice payload (Z.of_nat k + 1) (Z.of_nat k + 1 + nameLen)))
  \/ ((forall nameLen, ~ spec_accepts payload (Z.of_nat k) nameLen)
      /\ scanName payload (S k) = scanName payload k).
Proof.
  intros Hk.
  destruct (get_in_range payload (Z.of_nat k)) as (nameLen & G & _); [lia|].
  cbn [scanName].
  destruct (Z.of_nat k >=? 5) eqn:E; [|rewrite Z.geb_leb in E; apply Z.leb_gt in E; lia].
  rewrite G.
  destruct ((nameLen >? 0) && (nameLen <? 32)
            && (Z.of_nat k + 1 + nameLen <=? len payload)) eqn:C.
  - apply andb_prop in C. destruct C as [C C3].
    apply andb_prop in C. destruct C as [C1 C2].
    apply Z.gtb_lt in C1. apply Z.ltb_lt in C2. apply Z.leb_le in C3.
    set (nameBytes := slice payload (Z.of_nat k + 1) (Z.of_nat k + 1 + nameLen)).
    assert (SL : len nameBytes = nameLen).
    { unfold nameBytes. rewrite slice_length by lia. lia. }
    destruct (Forall_dec spec_printable) with (l := nameBytes) as [F|F].
    { intros b. unfold spec_printable.
      destruct (Z_le_dec 32 b); destruct (Z_le_dec b 126); (left; lia) || (right; lia). }
    + left. exists nameLen. split.
      * unfold spec_accepts. fold nameBytes. repeat split; auto; lia.
      * rewrite (nameLoop_valid nameBytes EmptyString F).
        cbn [append andb]. rewrite length_spec_decode_name.
        unfold len in SL. rewrite SL. rewrite Z.eqb_refl. reflexivity.
    + right. split.
      * intros n (G' & _ & _ & F'). rewrite G in G'. injection G' as <-.
        apply F. exact F'.
      * pose proof (nameLoop_invalid nameBytes EmptyString F) as V.
        destruct (nameLoop nameBytes EmptyString) as [valid name].
        cbn [fst] in V. subst valid. reflexivity.
  - right. split; [|reflexivity].
    intros n (G' & B1 & B2 & _). rewrite G in G'. injection G' as <-.
    apply not_true_iff_false in C. apply C.
    apply andb_true_intro. split; [apply andb_true_intro; split|].
    + apply Z.gtb_lt. lia.
    + apply Z.ltb_lt. lia.
    + apply Z.leb_le. lia.
Qed.

(** The backward scan returns the run behind the rightmost accepted index,
    or the empty string when no index is accepted. *)
Lemma scanName_rightmost (n : nat) :
  (n <= List.length payload)%nat ->
  (exists i nameLen,
      5 <= i < Z.of_nat n
      /\ spec_accepts payload i nameLen
      /\ (forall j m, i < j < Z.of_nat n -> ~ spec_accepts payload j m)
      /\ scanName payload n
         = spec_decode_name (slice payload (i + 1) (i + 1 + nameLen)))
  \/ ((forall j m, 5 <= j < Z.of_nat n -> ~ spec_accepts payload j m)
      /\ scanName payload n = EmptyString).
Proof.
  induction n as [|k IH]; intros Hn.
  - right. split; [intros j m Hj; lia|reflexivity].
  - destruct (Z_lt_dec (Z.of_nat k) 5) as [Hlt|Hge].
    + right. split; [intros j m Hj; lia|].
      cbn [scanName].
      destruct (Z.of_nat k >=? 5) eqn:E; [|reflexivity].
      rewrite Z.geb_leb in E. apply Z.leb_le in E. lia.
    + destruct (scanName_step k) as [(nameLen & A & R)|(NA & R)];
        [unfold len; lia| |].
      * left. exists (Z.of_nat k), nameLen.
        split; [lia|]. split; [exact A|]. split; [|exact R].
        intros j m Hj. lia.
      * rewrite R.
        destruct IH as [(i & nameLen & Hi & A & Rm & Eq)|(None & Eq)]; [lia| |].
        -- left. exists i, nameLen.
           split; [lia|]. split; [exact A|]. split; [|exact Eq].
           intros j m Hj.
           destruct (Z.eq_dec j (Z.of_nat k)) as [->|Hne]; [apply NA|].
           apply Rm. lia.
        -- right. split; [|exact Eq]. intros j m Hj.
           destruct (Z.eq_dec j (Z.of_nat k)) as [->|Hne]; [apply NA|].
           apply None. lia.
Qed.

End NameExtraction.

(* ====================================================================== *)
(** ** PacketCodec: the frame encoder *)
(* ====================================================================== *)

(** C1. For every command byte, type byte and payload of at most 255 bytes,
    [buildPacket] returns exactly the bytes 0x51 0x58 0x57, command, type,
    len(payload), followed by the payload; the frame has length
    6 + len(payload) and its byte 5 is len(payload). *)
Theorem buildPacket_layout (cmd type : Z) (payload : Uint8Array) :
  byte cmd -> byte type -> Forall byte payload -> len payload <= 255 ->
  exists frame,
    buildPacket cmd type (Some payload) = Ok frame
    /\ frame = [0x51; 0x58; 0x57; cmd; type; len payload] ++ payload
    /\ len frame = 6 + len payload
    /\ get frame 5 = Some (len payload).
Proof.
  intros Hc Ht Hp Hl.
  exists ([0x51; 0x58; 0x57; cmd; type; len payload] ++ payload).
  split; [|split; [reflexivity|split]].
  - rewrite buildPacket_frame.
    rewrite (ToUint8_byte cmd Hc), (ToUint8_byte type Ht).
    rewrite ToUint8_byte by (pose proof (len_nonneg payload); unfold byte; lia).
    rewrite (map_ToUint8_bytes payload Hp). reflexivity.
  - rewrite len_app. reflexivity.
  - reflexivity.
Qed.

Lemma buildPacket_layout_witness :
  exists frame,
    buildPacket CMD_SELECT_EQ TYPE_REQUEST (Some [2]) = Ok frame
    /\ frame = [0x51; 0x58; 0x57; 0x10; 0x01; 1] ++ [2]
    /\ len frame = 6 + 1
    /\ get frame 5 = Some 1.
Proof.
  apply (buildPacket_layout CMD_SELECT_EQ TYPE_REQUEST [2]).
  - unfold byte, CMD_SELECT_EQ. lia.
  - unfold byte, TYPE_REQUEST. lia.
  - constructor; [unfold byte; lia|constructor].
  - unfold len. simpl. lia.
Defined.

(** C7, as the specification states it, fails: a payload of 256 bytes is
    longer than 255, and [buildPacket] throws nothing but returns a frame
    of 262 bytes. *)
Lemma buildPacket_oversize_counterexample :
  255 < len (repeat 0 256)
  /\ buildPacket CMD_CUSTOM_EQ TYPE_NOTIFY (Some (repeat 0 256))
     = Ok ([0x51; 0x58; 0x57; 0x20; 0x03; 0] ++ repeat 0 256)
  /\ ~ (exists e, buildPacket CMD_CUSTOM_EQ TYPE_NOTIFY (Some (repeat 0 256))
                  = Throw e).
Proof.
  split; [vm_compute; reflexivity|].
  split; [vm_compute; reflexivity|].
  intros [e H]. vm_compute in H. discriminate H.
Qed.

(** C7, amended. [buildPacket] has no failure path: for a payload of any
    length, also one longer than 255 bytes, it returns a frame made of the
    header, the command, the type, one length byte and the whole payload;
    the length byte equals len(payload) whenever that is at most 255. *)
Theorem buildPacket_never_fails (cmd type : Z) (payload : Uint8Array) :
  byte cmd -> byte type -> Forall byte payload ->
  exists l,
    byte l
    /\ buildPacket cmd type (Some payload)
       = Ok ([0x51; 0x58; 0x57; cmd; type; l] ++ payload)
    /\ (len payload <= 255 -> l = len payload).
Proof.
  intros Hc Ht Hp. exists (ToUint8 (len payload)).
  split; [|split].
  - unfold byte, ToUint8. apply Z.mod_pos_bound. lia.
  - rewrite buildPacket_frame.
    rewrite (ToUint8_byte cmd Hc), (ToUint8_byte type Ht).
    rewrite (map_ToUint8_bytes payload Hp). reflexivity.
  - intros Hl. apply ToUint8_byte.
    pose proof (len_nonneg payload). unfold byte. lia.
Qed.

Lemma buildPacket_never_fails_witness :
  exists l,
    byte l
    /\ buildPacket CMD_CUSTOM_EQ TYPE_NOTIFY (Some (repeat 0 256))
       = Ok ([0x51; 0x58; 0x57; CMD_CUSTOM_EQ; TYPE_NOTIFY; l] ++ repeat 0 256)
    /\ (len (repeat 0 256) <= 255 -> l = len (repeat 0 256)).
Proof.
  apply (buildPacket_never_fails CMD_CUSTOM_EQ TYPE_NOTIFY (repeat 0 256)).
  - unfold byte, CMD_CUSTOM_EQ. lia.
  - unfold byte, TYPE_NOTIFY. lia.
  - apply Forall_forall. intros b Hb. apply repeat_spec in Hb. subst b.
    unfold byte. lia.
Defined.

(* ====================================================================== *)
(** ** PacketCodec: the notification handler *)
(* ====================================================================== *)

(** [onNotification] never throws. *)
Lemma onNotification_total (value : Uint8Array) (st : state) :
  exists st', onNotification value st = Ok st'.
Proof.
  destruct (Z_lt_dec (len value) 5) as [Hs|Hl].
  - unfold onNotification.
    destruct (len value <? 5) eqn:E; [|apply Z.ltb_ge in E; lia].
    cbn [orb]. eexists. reflexivity.
  - destruct (list_eq_dec Z.eq_dec (firstn 3 value) QXW_PREFIX) as [P|P].
    + destruct (onNotification_dispatch value st) as (cmd & sub & _ & _ & E);
        [lia|exact P|].
      rewrite E. cbv zeta.
      destruct ((cmd =? CMD_DEVICE_INFO) && (sub =? 2));
        [eexists; reflexivity|].
      destruct (cmd =? CMD_SELECT_EQ); [eexists; reflexivity|].
      destruct (cmd =? CMD_CUSTOM_EQ); eexists; reflexivity.
    + unfold onNotification.
      assert (G : (len value <? 5)
         || strict_neq (get value 0) 0x51
         || strict_neq (get value 1) 0x58
         || strict_neq (get value 2) 0x57 = true).
      { apply prefix_guard. now right. }
      rewrite G. eexists. reflexivity.
Qed.

(** C2. [onNotification] never throws.  A packet with fewer than 5 bytes or
    whose first three bytes are not 0x51 0x58 0x57 is reported as an unknown
    packet; a well-prefixed packet whose command byte is none of 0x10, 0x20
    and 0x27 is reported as an unknown command carrying that byte; and the
    bytes 51 58 57 99 01 00 are reported as unknown command 0x99. *)
Theorem onNotification_unrecognized (value : Uint8Array) (st : state) :
  (exists st', onNotification value st = Ok st')
  /\ (len value < 5 \/ firstn 3 value <> QXW_PREFIX ->
      onNotification value st = Ok (log UnknownPacket (log (RX value) st)))
  /\ (forall cmd,
        5 <= len value -> firstn 3 value = QXW_PREFIX ->
        get value 3 = Some cmd ->
        cmd <> 0x10 -> cmd <> 0x20 -> cmd <> 0x27 ->
        onNotification value st
        = Ok (log (UnknownCommand cmd) (log (RX value) st)))
  /\ onNotification [0x51; 0x58; 0x57; 0x99; 0x01; 0x00] st
     = Ok (log (UnknownCommand 0x99)
             (log (RX [0x51; 0x58; 0x57; 0x99; 0x01; 0x00]) st)).
Proof.
  split; [apply onNotification_total|].
  split; [|split; [|reflexivity]].
  - intros H. apply prefix_guard in H. unfold onNotification.
    rewrite H. reflexivity.
  - intros cmd L P G N1 N2 N3.
    destruct (onNotification_dispatch value st L P) as (c & sub & G' & _ & E).
    rewrite G in G'. injection G' as <-.
    rewrite E. cbv zeta. unfold CMD_DEVICE_INFO, CMD_SELECT_EQ, CMD_CUSTOM_EQ.
    destruct (Z.eqb_spec cmd 39); [contradiction|].
    destruct (Z.eqb_spec cmd 16); [contradiction|].
    destruct (Z.eqb_spec cmd 32); [contradiction|].
    reflexivity.
Qed.

Lemma onNotification_unrecognized_witness :
  onNotification [0x51; 0x58; 0x57; 0x42; 0x03; 0x00] initial
  = Ok (log (UnknownCommand 0x42)
          (log (RX [0x51; 0x58; 0x57; 0x42; 0x03; 0x00]) initial))
  /\ onNotification [0x51; 0x58] initial
     = Ok (log UnknownPacket (log (RX [0x51; 0x58]) initial)).
Proof.
  split.
  - apply (proj1 (proj2 (proj2 (onNotification_unrecognized
             [0x51; 0x58; 0x57; 0x42; 0x03; 0x00] initial))) 0x42).
    + unfold len. simpl. lia.
    + reflexivity.
    + reflexivity.
    + lia.
    + lia.
    + lia.
  - apply (proj1 (proj2 (onNotification_unrecognized [0x51; 0x58] initial))).
    left. unfold len. simpl. lia.
Defined.

(** C10. A well-prefixed packet of at least 5 bytes whose command byte is
    0x27 but whose byte 4 is not the sub-code 0x02 is reported as unknown
    command 0x27: the handler does not throw, no device info is parsed and
    the info card is left as it was. *)
Theorem onNotification_deviceInfo_subcode (value : Uint8Array) (st : state) :
  5 <= len value -> firstn 3 value = QXW_PREFIX ->
  get value 3 = Some 0x27 -> get value 4 <> Some 0x02 ->
  onNotification value st
  = Ok (log (UnknownCommand 0x27) (log (RX value) st))
  /\ decode value st = Ok ([UnknownCommand 0x27], infoCard st).
Proof.
  intros L P G3 G4.
  destruct (onNotification_dispatch value st L P) as (c & sub & G3' & G4' & E).
  rewrite G3 in G3'. injection G3' as <-.
  assert (Hsub : sub <> 2) by (intros ->; apply G4; exact G4').
  assert (R : onNotification value st
              = Ok (log (UnknownCommand 0x27) (log (RX value) st))).
  { rewrite E. cbv zeta.
    destruct (Z.eqb_spec sub 2); [contradiction|].
    reflexivity. }
  split; [exact R|].
  unfold decode. rewrite R. cbn [JS.bind log logEl infoCard].
  rewrite <- app_assoc. rewrite skipn_app.
  rewrite skipn_all2 by (cbn [List.length]; lia).
  replace (S (List.length (logEl st)) - List.length (logEl st))%nat
    with 1%nat by lia.
  reflexivity.
Qed.

Lemma onNotification_deviceInfo_subcode_witness :
  onNotification [0x51; 0x58; 0x57; 0x27; 0x01; 0x00] initial
  = Ok (log (UnknownCommand 0x27)
          (log (RX [0x51; 0x58; 0x57; 0x27; 0x01; 0x00]) initial))
  /\ decode [0x51; 0x58; 0x57; 0x27; 0x01; 0x00] initial
     = Ok ([UnknownCommand 0x27], infoCard initial).
Proof.
  apply (onNotification_deviceInfo_subcode
           [0x51; 0x58; 0x57; 0x27; 0x01; 0x00] initial).
  - unfold len. simpl. lia.
  - reflexivity.
  - reflexivity.
  - intros H. vm_compute in H. discriminate H.
Defined.

(** C6, as the specification states it, fails: the frames of
    (0x10, 0x01, [1]) and (0x10, 0x01, [2]) are decoded to the same event,
    so no function of the decoded event gives back the triple that was
    encoded. *)
Lemma decode_roundtrip_counterexample :
  (exists f1 f2,
      buildPacket 0x10 0x01 (Some [1]) = Ok f1
      /\ buildPacket 0x10 0x01 (Some [2]) = Ok f2
      /\ decode f1 initial = decode f2 initial)
  /\ ~ (exists recover : list log_line * option device_info
                         -> Z * Z * Uint8Array,
           forall cmd type payload frame ev,
             byte cmd -> byte type -> Forall byte payload ->
             len payload <= 255 ->
             buildPacket cmd type (Some payload) = Ok frame ->
             decode frame initial = Ok ev ->
             recover ev = (cmd, type, payload)).
Proof.
  split.
  - exists [0x51; 0x58; 0x57; 0x10; 0x01; 1; 1],
           [0x51; 0x58; 0x57; 0x10; 0x01; 1; 2].
    repeat split; reflexivity.
  - intros [recover H].
    assert (B : forall b, Forall byte [b] <-> byte b).
    { intros b. split; [intros F; now inversion F|intros Hb; now constructor]. }
    assert (H1 := H 0x10 0x01 [1] [0x51; 0x58; 0x57; 0x10; 0x01; 1; 1]
                    ([PresetChangeConfirmed], None)).
    assert (H2 := H 0x10 0x01 [2] [0x51; 0x58; 0x57; 0x10; 0x01; 1; 2]
                    ([PresetChangeConfirmed], None)).
    assert (E1 : recover ([PresetChangeConfirmed], None) = (16, 1, [1])).
    { apply H1; try reflexivity; try (unfold byte; lia).
      - apply B. unfold byte. lia.
      - unfold len. simpl. lia. }
    assert (E2 : recover ([PresetChangeConfirmed], None) = (16, 1, [2])).
    { apply H2; try reflexivity; try (unfold byte; lia).
      - apply B. unfold byte. lia.
      - unfold len. simpl. lia. }
    rewrite E1 in E2. discriminate E2.
Qed.

Lemma slice_from_frame (a b c d e l : Z) (payload : Uint8Array) :
  slice_from ([a; b; c; d; e; l] ++ payload) 5 = l :: payload.
Proof.
  unfold slice_from, slice, rel_index.
  assert (L : len ([a; b; c; d; e; l] ++ payload) = 6 + len payload)
    by now rewrite len_app.
  pose proof (len_nonneg payload) as N.
  rewrite L.
  change (5 <? 0) with false. cbv iota.
  destruct (6 + len payload <? 0) eqn:E; [apply Z.ltb_lt in E; lia|].
  rewrite Z.min_l by lia. rewrite Z.min_l by lia.
  change (Z.to_nat 5) with 5%nat. cbn [app skipn].
  apply firstn_all2. cbn [List.length]. unfold len. lia.
Qed.

(** C6, amended.  For every command byte, type byte and payload of at most
    255 bytes, the frame of encode(cmd, type, payload) passes the length and
    prefix checks of the decoder, which then recovers the command byte and
    nothing else of the triple: command 0x10 is confirmed as a preset change,
    command 0x20 as a custom EQ, command 0x27 with type 0x02 is parsed as
    device info from the bytes at offset 5 on (the length byte followed by
    the payload), and any other command is reported as unknown command
    cmd. *)
Theorem decode_of_encoded (cmd type : Z) (payload : Uint8Array) (st : state) :
  byte cmd -> byte type -> Forall byte payload -> len payload <= 255 ->
  exists frame,
    buildPacket cmd type (Some payload) = Ok frame
    /\ get frame 3 = Some cmd
    /\ onNotification frame st =
       let st' := log (RX frame) st in
       if (cmd =? 0x27) && (type =? 0x02)
       then Ok (parseDeviceInfo (len payload :: payload) st')
       else if cmd =? 0x10 then Ok (log PresetChangeConfirmed st')
       else if cmd =? 0x20 then Ok (log CustomEqConfirmed st')
       else Ok (log (UnknownCommand cmd) st').
Proof.
  intros Hc Ht Hp Hl.
  set (frame := [0x51; 0x58; 0x57; cmd; type; len payload] ++ payload).
  exists frame. split; [|split; [reflexivity|]].
  - rewrite buildPacket_frame.
    rewrite (ToUint8_byte cmd Hc), (ToUint8_byte type Ht).
    rewrite ToUint8_byte by (pose proof (len_nonneg payload); unfold byte; lia).
    rewrite (map_ToUint8_bytes payload Hp). reflexivity.
  - destruct (onNotification_dispatch frame st) as (c & sub & G3 & G4 & E).
    + unfold frame. rewrite len_app. pose proof (len_nonneg payload).
      unfold len at 1. cbn [List.length]. lia.
    + reflexivity.
    + injection G3 as <-. injection G4 as <-.
      rewrite E. unfold frame at 2. rewrite slice_from_frame. reflexivity.
Qed.

Lemma decode_of_encoded_witness :
  exists frame,
    buildPacket 0x27 0x02 (Some [1; 3; 100; 100]) = Ok frame
    /\ get frame 3 = Some 0x27
    /\ onNotification frame initial =
       let st' := log (RX frame) initial in
       if (0x27 =? 0x27) && (0x02 =? 0x02)
       then Ok (parseDeviceInfo (len [1; 3; 100; 100] :: [1; 3; 100; 100]) st')
       else if 0x27 =? 0x10 then Ok (log PresetChangeConfirmed st')
       else if 0x27 =? 0x20 then Ok (log CustomEqConfirmed st')
       else Ok (log (UnknownCommand 0x27) st').
Proof.
  apply (decode_of_encoded 0x27 0x02 [1; 3; 100; 100] initial).
  - unfold byte. lia.
  - unfold byte. lia.
  - repeat constructor; unfold byte; lia.
  - unfold len. simpl. lia.
Defined.

(* ====================================================================== *)
(** ** DeviceInfoParser *)
(* ====================================================================== *)

(** C8. [parseDeviceInfo] takes its error path, which only logs that the
    payload is too short and leaves the info card alone, exactly when the
    payload has fewer than 5 bytes; otherwise the battery levels it reports
    are payload[2] and payload[3]. *)
Theorem parseDeviceInfo_battery (payload : Uint8Array) (st : state) :
  (len payload < 5 <-> parseDeviceInfo payload st = log PayloadTooShort st)
  /\ (5 <= len payload ->
      exists info,
        parseDeviceInfo payload st = updateInfoCard info (log (Battery info) st)
        /\ batteryLeft info = Some (nth 2 payload 0)
        /\ batteryRight info = Some (nth 3 payload 0)).
Proof.
  assert (Long : 5 <= len payload ->
      exists info,
        parseDeviceInfo payload st = updateInfoCard info (log (Battery info) st)
        /\ batteryLeft info = Some (nth 2 payload 0)
        /\ batteryRight info = Some (nth 3 payload 0)).
  { intros L. unfold parseDeviceInfo.
    destruct (len payload <? 5) eqn:E; [apply Z.ltb_lt in E; lia|].
    eexists. split; [reflexivity|].
    destruct (five_bytes payload L) as (a & b & c & d & e & rest & ->).
    split; reflexivity. }
  split; [split|exact Long].
  - intros L. unfold parseDeviceInfo.
    destruct (len payload <? 5) eqn:E; [reflexivity|apply Z.ltb_ge in E; lia].
  - intros E. destruct (Z_lt_dec (len payload) 5) as [L|L]; [exact L|].
    destruct Long as (info & P & _); [lia|].
    rewrite P in E. apply (f_equal logEl) in E.
    cbn [updateInfoCard log logEl] in E.
    apply app_inv_head in E. discriminate E.
Qed.

Lemma parseDeviceInfo_battery_witness :
  exists info,
    parseDeviceInfo [1; 3; 100; 99; 0] initial
    = updateInfoCard info (log (Battery info) initial)
    /\ batteryLeft info = Some (nth 2 [1; 3; 100; 99; 0] 0)
    /\ batteryRight info = Some (nth 3 [1; 3; 100; 99; 0] 0).
Proof.
  apply (proj2 (parseDeviceInfo_battery [1; 3; 100; 99; 0] initial)).
  unfold len. simpl. lia.
Defined.

(** C3. For a device-info payload of at least 5 bytes the reported name is
    found by the backward scan over the indices len(payload)-1 down to 5:
    it is the run of nameLen bytes behind the rightmost index i whose byte
    nameLen satisfies 0 < nameLen < 32, i+1+nameLen <= len(payload) and whose
    run is printable ASCII, decoded as characters, and it is the empty
    string when no index is accepted.  For the payload
    01 03 64 64 00 05 48 65 6c 6c 6f the handler reports 100, 100 and
    "Hello". *)
Theorem parseDeviceInfo_name (payload : Uint8Array) (st : state) :
  (5 <= len payload ->
   exists info,
     parseDeviceInfo payload st = updateInfoCard info (log (Battery info) st)
     /\ ((exists i nameLen,
             5 <= i < len payload
             /\ spec_accepts payload i nameLen
             /\ (forall j m, i < j < len payload -> ~ spec_accepts payload j m)
             /\ deviceName info
                = spec_decode_name (slice payload (i + 1) (i + 1 + nameLen)))
         \/ ((forall j m, 5 <= j < len payload -> ~ spec_accepts payload j m)
             /\ deviceName info = EmptyString)))
  /\ parseDeviceInfo [0x01; 0x03; 0x64; 0x64; 0x00;
                      0x05; 0x48; 0x65; 0x6c; 0x6c; 0x6f] st
     = let info := {| batteryLeft := Some 100;
                      batteryRight := Some 100;
                      deviceName := "Hello" |} in
       updateInfoCard info (log (Battery info) st).
Proof.
  split; [|reflexivity].
  intros L. unfold parseDeviceInfo.
  destruct (len payload <? 5) eqn:E; [apply Z.ltb_lt in E; lia|].
  eexists. split; [reflexivity|]. cbn [deviceName].
  apply (scanName_rightmost payload (List.length payload)). lia.
Qed.

Lemma parseDeviceInfo_name_witness :
  exists info,
    parseDeviceInfo [1; 3; 90; 80; 0; 2; 0x41; 0x42; 2; 0x43; 0x44] initial
    = updateInfoCard info (log (Battery info) initial)
    /\ ((exists i nameLen,
            5 <= i < len [1; 3; 90; 80; 0; 2; 0x41; 0x42; 2; 0x43; 0x44]
            /\ spec_accepts [1; 3; 90; 80; 0; 2; 0x41; 0x42; 2; 0x43; 0x44]
                 i nameLen
            /\ (forall j m,
                   i < j < len [1; 3; 90; 80; 0; 2; 0x41; 0x42; 2; 0x43; 0x44] ->
                   ~ spec_accepts [1; 3; 90; 80; 0; 2; 0x41; 0x42; 2; 0x43; 0x44]
                       j m)
            /\ deviceName info
               = spec_decode_name
                   (slice [1; 3; 90; 80; 0; 2; 0x41; 0x42; 2; 0x43; 0x44]
                      (i + 1) (i + 1 + nameLen)))
        \/ ((forall j m,
                5 <= j < len [1; 3; 90; 80; 0; 2; 0x41; 0x42; 2; 0x43; 0x44] ->
                ~ spec_accepts [1; 3; 90; 80; 0; 2; 0x41; 0x42; 2; 0x43; 0x44]
                    j m)
            /\ deviceName info = EmptyString)).
Proof.
  apply (proj1 (parseDeviceInfo_name
                  [1; 3; 90; 80; 0; 2; 0x41; 0x42; 2; 0x43; 0x44] initial)).
  unfold len. simpl. lia.
Defined.

(** The whole exchange: the request frame of [requestDeviceInfo] is
    51 58 57 27 01 00, and the notification 51 58 57 27 02 followed by the
    payload above is shown as 100 %, 100 % and "Hello". *)
Example deviceInfo_exchange :
  buildPacket CMD_DEVICE_INFO TYPE_REQUEST None
  = Ok [0x51; 0x58; 0x57; 0x27; 0x01; 0x00]
  /\ decode [0x51; 0x58; 0x57; 0x27; 0x02;
             0x01; 0x03; 0x64; 0x64; 0x00;
             0x05; 0x48; 0x65; 0x6c; 0x6c; 0x6f] initial
     = let info := {| batteryLeft := Some 100;
                      batteryRight := Some 100;
                      deviceName := "Hello" |} in
       Ok ([Battery info], Some info).
Proof. split; reflexivity. Qed.

(* ====================================================================== *)
(** ** Facts about binary64 Numbers *)
(* ====================================================================== *)

Lemma Prim2SF_is_nan (x : float) :
  is_nan x = true <-> Prim2SF x = S754_nan.
Proof.
  unfold Prim2SF. destruct (is_nan x); split; try reflexivity; try discriminate.
  intros H. destruct (is_zero x); [discriminate|].
  destruct (is_infinity x); [discriminate|].
  destruct (Z.frexp x) as [r e].
  destruct (shr_fexp prec emax (Uint63.to_Z (normfr_mantissa r)) (e - prec) loc_Exact)
    as [s e'].
  destruct (shr_m s); discriminate.
Qed.

Lemma not_nan_Prim2SF (x : float) :
  is_nan x = false <-> Prim2SF x <> S754_nan.
Proof.
  rewrite <- Prim2SF_is_nan. destruct (is_nan x); split; congruence.
Qed.

Lemma SFcompare_antisym (a b : spec_float) (c : comparison) :
  SFcompare a b = Some c -> SFcompare b a = Some (CompOpp c).
Proof.
  destruct a as [sa|sa| |sa ma ea], b as [sb|sb| |sb mb eb]; cbn [SFcompare];
    try discriminate;
    try (destruct sa; intros H; injection H as <-; reflexivity);
    try (destruct sb; intros H; injection H as <-; reflexivity);
    try (destruct sa, sb; intros H; injection H as <-; reflexivity).
  intros H. injection H as <-.
  assert (E : (eb ?= ea) = CompOpp (ea ?= eb)) by apply Z.compare_antisym.
  assert (M : Pos.compare_cont Eq mb ma = CompOpp (Pos.compare_cont Eq ma mb)).
  { symmetry. apply (Pos.compare_cont_antisym ma mb Eq). }
  rewrite E, M.
  destruct sa, sb; try reflexivity;
    destruct (ea ?= eb); cbn [CompOpp]; try reflexivity;
    destruct (Pos.compare_cont Eq ma mb); reflexivity.
Qed.

Lemma SFcompare_defined (a b : spec_float) :
  a <> S754_nan -> b <> S754_nan -> exists c, SFcompare a b = Some c.
Proof.
  intros Ha Hb.
  destruct a as [sa|sa| |sa ma ea], b as [sb|sb| |sb mb eb]; cbn [SFcompare];
    try congruence; eexists; reflexivity.
Qed.

Lemma ltb_leb (a b : float) : (a <? b)%float = true -> (a <=? b)%float = true.
Proof.
  rewrite ltb_spec, leb_spec. unfold SFltb, SFleb.
  destruct (SFcompare (Prim2SF a) (Prim2SF b)) as [[| |]|]; congruence.
Qed.

Lemma not_ltb_leb (a b : float) :
  is_nan a = false -> is_nan b = false ->
  (a <? b)%float = false -> (b <=? a)%float = true.
Proof.
  intros Na Nb. rewrite ltb_spec, leb_spec. unfold SFltb, SFleb.
  apply not_nan_Prim2SF in Na, Nb.
  destruct (SFcompare_defined (Prim2SF a) (Prim2SF b) Na Nb) as [c C].
  rewrite C. rewrite (SFcompare_antisym _ _ _ C).
  destruct c; cbn [CompOpp]; congruence.
Qed.

Lemma leb_not_nan (a b : float) :
  (a <=? b)%float = true -> is_nan a = false /\ is_nan b = false.
Proof.
  rewrite leb_spec. unfold SFleb. rewrite !not_nan_Prim2SF.
  destruct (Prim2SF a), (Prim2SF b); cbn [SFcompare]; split; congruence.
Qed.

(** Rounding a non-negative mantissa never produces NaN. *)
Lemma shr_1_nonneg (mrs : shr_record) : 0 <= shr_m mrs -> 0 <= shr_m (shr_1 mrs).
Proof.
  destruct mrs as [m r s]. cbn [shr_m].
  destruct m as [|[p|p|]|[p|p|]]; cbn [shr_1 shr_m]; lia.
Qed.

Lemma iter_pos_nonneg (p : positive) (mrs : shr_record) :
  0 <= shr_m mrs -> 0 <= shr_m (iter_pos shr_1 p mrs).
Proof.
  revert mrs. induction p as [p IH|p IH|]; intros mrs H; cbn [iter_pos].
  - apply IH, IH, shr_1_nonneg, H.
  - apply IH, IH, H.
  - apply shr_1_nonneg, H.
Qed.

Lemma shr_fexp_nonneg (m e : Z) (l : location) :
  0 <= m -> 0 <= shr_m (fst (shr_fexp prec emax m e l)).
Proof.
  intros H. unfold shr_fexp, shr.
  assert (R : 0 <= shr_m (shr_record_of_loc m l)).
  { destruct l as [|[| |]]; exact H. }
  destruct (fexp prec emax (Zdigits2 m + e) - e); cbn [fst]; auto.
  apply iter_pos_nonneg, R.
Qed.

Lemma binary_round_aux_not_nan (s : bool) (m e : Z) (l : location) :
  0 <= m -> binary_round_aux prec emax s m e l <> S754_nan.
Proof.
  intros H. unfold binary_round_aux.
  pose proof (shr_fexp_nonneg m e l H) as H1.
  destruct (shr_fexp prec emax m e l) as [mrs' e']. cbn [fst] in H1.
  assert (H2 : 0 <= round_nearest_even (shr_m mrs') (loc_of_shr_record mrs')).
  { unfold round_nearest_even.
    destruct (loc_of_shr_record mrs') as [|[| |]]; try lia.
    destruct (Z.even (shr_m mrs')); lia. }
  pose proof (shr_fexp_nonneg _ e' loc_Exact H2) as H3.
  destruct (shr_fexp prec emax _ e' loc_Exact) as [mrs'' e'']. cbn [fst] in H3.
  destruct (shr_m mrs''); [discriminate| |lia].
  destruct (e'' <=? emax - prec); discriminate.
Qed.

Lemma binary_normalize_not_nan (m e : Z) (sz : bool) :
  binary_normalize prec emax m e sz <> S754_nan.
Proof.
  unfold binary_normalize, binary_round.
  destruct m as [|p|p]; [discriminate| |].
  - destruct (shl_align p e _) as [mz ez]. apply binary_round_aux_not_nan. lia.
  - destruct (shl_align p e _) as [mz ez]. apply binary_round_aux_not_nan. lia.
Qed.

Lemma mul_not_nan (x y : float) :
  is_nan x = false -> finite y -> is_nan (x * y) = false.
Proof.
  intros Nx (s & m & e & Fy). apply not_nan_Prim2SF in Nx.
  apply not_nan_Prim2SF. rewrite mul_spec, Fy. unfold SF64mul, SFmul.
  destruct (Prim2SF x) as [sx|sx| |sx mx ex]; try discriminate; [congruence|].
  apply binary_round_aux_not_nan. lia.
Qed.

Lemma add_not_nan (x y : float) :
  is_nan x = false -> finite y -> is_nan (x + y) = false.
Proof.
  intros Nx (s & m & e & Fy). apply not_nan_Prim2SF in Nx.
  apply not_nan_Prim2SF. rewrite add_spec, Fy. unfold SF64add, SFadd.
  destruct (Prim2SF x) as [sx|sx| |sx mx ex]; try discriminate; [congruence|].
  apply binary_normalize_not_nan.
Qed.

Lemma of_Z_not_nan (z : Z) : is_nan (of_Z z) = false.
Proof.
  apply not_nan_Prim2SF. unfold of_Z.
  destruct (z <? 0).
  - rewrite opp_spec, of_uint63_spec.
    pose proof (binary_normalize_not_nan
                  (Uint63Axioms.to_Z (Uint63Axioms.of_Z (- z))) 0 false) as H.
    destruct (binary_normalize prec emax _ 0 false); cbn [SFopp]; congruence.
  - rewrite of_uint63_spec. apply binary_normalize_not_nan.
Qed.

Lemma Math_round_not_nan (x : float) :
  is_nan x = false -> is_nan (Math_round x) = false.
Proof.
  intros Nx. unfold Math_round.
  destruct (Prim2SF x) as [sx|sx| |sx mx ex]; try exact Nx.
  destruct (0 <=? ex); [exact Nx|].
  destruct (_ =? 0); [destruct sx; reflexivity|apply of_Z_not_nan].
Qed.


Lemma Math_min_cases (a b : float) :
  is_nan a = false -> is_nan b = false ->
  (Math_min a b = a /\ (a <=? b)%float = true)
  \/ (Math_min a b = b /\ (b <=? a)%float = true).
Proof.
  intros Na Nb. unfold Math_min. rewrite Na, Nb. cbn [orb].
  destruct (a <? b)%float eqn:L1; [left; split; [reflexivity|now apply ltb_leb]|].
  destruct (b <? a)%float eqn:L2; [right; split; [reflexivity|now apply ltb_leb]|].
  destruct (get_sign a).
  - left. split; [reflexivity|]. now apply not_ltb_leb.
  - right. split; [reflexivity|]. now apply not_ltb_leb.
Qed.

Lemma Math_max_cases (a b : float) :
  is_nan a = false -> is_nan b = false ->
  (Math_max a b = a /\ (b <=? a)%float = true)
  \/ (Math_max a b = b /\ (a <=? b)%float = true).
Proof.
  intros Na Nb. unfold Math_max. rewrite Na, Nb. cbn [orb].
  destruct (a <? b)%float eqn:L1; [right; split; [reflexivity|now apply ltb_leb]|].
  destruct (b <? a)%float eqn:L2; [left; split; [reflexivity|now apply ltb_leb]|].
  destruct (get_sign a).
  - right. split; [reflexivity|]. now apply not_ltb_leb.
  - left. split; [reflexivity|]. now apply not_ltb_leb.
Qed.

(** Clamping a Number that is not NaN to [0, 255]. *)
Lemma clamp_range (e : float) :
  is_nan e = false ->
  (0 <=? Math_max 0 (Math_min 255 e))%float = true
  /\ (Math_max 0 (Math_min 255 e) <=? 255)%float = true.
Proof.
  intros Ne.
  assert (M : is_nan (Math_min 255 e) = false
              /\ (Math_min 255 e <=? 255)%float = true).
  { destruct (Math_min_cases 255 e) as [[-> _]|[-> L]];
      [reflexivity|exact Ne|split; reflexivity|split; [exact Ne|exact L]]. }
  destruct M as [Nm Lm].
  destruct (Math_max_cases 0 (Math_min 255 e)) as [[-> _]|[-> L]];
    [reflexivity|exact Nm|split; reflexivity|split; [exact L|exact Lm]].
Qed.

Lemma finite_10 : finite 10.
Proof. eexists _, _, _. vm_compute. reflexivity. Qed.

Lemma finite_120 : finite 120.
Proof. eexists _, _, _. vm_compute. reflexivity. Qed.

Lemma encodeGain_range (db : float) :
  is_nan db = false ->
  (0 <=? encodeGain db)%float = true /\ (encodeGain db <=? 255)%float = true.
Proof.
  intros N. unfold encodeGain. apply clamp_range.
  apply add_not_nan; [|exact finite_120].
  apply Math_round_not_nan. apply mul_not_nan; [exact N|exact finite_10].
Qed.


Lemma unclamped_spec (k : Z) : -120 <= k <= 135 -> In k unclamped.
Proof.
  intros H. unfold unclamped. apply in_map_iff.
  exists (Z.to_nat (k + 120)). split; [lia|]. apply in_seq. lia.
Qed.



(** *** Rounding and clamping *)

Lemma digits2_pos_le (m : positive) :
  2 ^ (Z.pos (digits2_pos m) - 1) <= Z.pos m.
Proof.
  induction m as [p IH|p IH|]; cbn [digits2_pos].
  - rewrite Pos2Z.inj_succ.
    replace (Z.succ (Z.pos (digits2_pos p)) - 1)
      with (Z.succ (Z.pos (digits2_pos p) - 1)) by lia.
    rewrite Z.pow_succ_r by lia. lia.
  - rewrite Pos2Z.inj_succ.
    replace (Z.succ (Z.pos (digits2_pos p)) - 1)
      with (Z.succ (Z.pos (digits2_pos p) - 1)) by lia.
    rewrite Z.pow_succ_r by lia. lia.
  - cbn. lia.
Qed.

(** A Number with a non-negative exponent has a full mantissa: its
    magnitude is at least 2^52. *)
Lemma integral_large (x : float) (s : bool) (m : positive) (e : Z) :
  Prim2SF x = S754_finite s m e -> 0 <= e -> 2 ^ 52 <= Z.pos m.
Proof.
  intros E He. pose proof (Prim2SF_valid x) as V. rewrite E in V.
  unfold valid_binary, bounded, canonical_mantissa, fexp in V.
  apply andb_prop in V. destruct V as [V _]. apply Z.eqb_eq in V.
  assert (D : Z.pos (digits2_pos m) = 53).
  { unfold prec, emax, emin in V. lia. }
  pose proof (digits2_pos_le m) as L. rewrite D in L. exact L.
Qed.

Lemma zero_cases (x : float) (s : bool) :
  Prim2SF x = S754_zero s -> x = zero \/ x = neg_zero.
Proof.
  intros E. rewrite <- (SF2Prim_Prim2SF x), E.
  destruct s; [right|left]; reflexivity.
Qed.

Lemma clamp_integer_check :
  forallb (fun k => PrimFloat.Leibniz.eqb
                      (Math_max 0 (Math_min 255 (of_Z k + 120)))
                      (of_Z (k + 120)))
          unclamped = true.
Proof. vm_compute. reflexivity. Qed.

(** [Math_round] takes the nearest integer, a tie going up: when the exact
    value n/d of [p] satisfies k - 1/2 <= n/d < k + 1/2 and k + 120 is a
    byte, rounding, adding 120 and clamping give k + 120. *)
Lemma clamp_round_nearest (p : float) (n d k : Z) :
  Number_fraction p = Some (n, d) ->
  (2 * k - 1) * d <= 2 * n < (2 * k + 1) * d ->
  -120 <= k <= 135 ->
  Math_max 0 (Math_min 255 (Math_round p + 120)) = of_Z (k + 120).
Proof.
  unfold Number_fraction, Math_round. intros F B Hk.
  assert (Z0 : forall z, z = zero \/ z = neg_zero -> k = 0 ->
               Math_max 0 (Math_min 255 (z + 120)) = of_Z (k + 120)).
  { intros z [-> | ->] ->; vm_compute; reflexivity. }
  destruct (Prim2SF p) as [s|s| |s m e] eqn:E; try discriminate F.
  - injection F as <- <-. apply Z0; [exact (zero_cases p s E)|lia].
  - destruct (Z.leb_spec 0 e) as [He|He].
    + exfalso. pose proof (integral_large p s m e E He) as L.
      injection F as <- <-.
      assert (P : 1 <= 2 ^ e) by (apply Z.lt_pred_le, Z.pow_pos_nonneg; lia).
      assert (P52 : 2 ^ 52 = 4503599627370496) by reflexivity.
      destruct s; nia.
    + injection F as <- <-.
      set (v := if s then Z.neg m else Z.pos m) in *.
      set (d := 2 ^ (- e)) in *.
      assert (Hd : 0 < d) by (apply Z.pow_pos_nonneg; lia).
      assert (R : (2 * v + d) / (2 * d) = k).
      { symmetry. apply (Z.div_unique _ _ k (2 * v + d - 2 * d * k)); lia. }
      rewrite R. destruct (Z.eqb_spec k 0) as [K0|K0].
      * apply Z0; [destruct s; [right|left]; reflexivity|exact K0].
      * pose proof clamp_integer_check as C. rewrite forallb_forall in C.
        apply Leibniz.eqb_spec. apply C. apply unclamped_spec. exact Hk.
Qed.

Lemma ltb_not_nan (a b : float) :
  (a <? b)%float = true -> is_nan a = false /\ is_nan b = false.
Proof. intros H. apply leb_not_nan. apply ltb_leb. exact H. Qed.

(** Below 0 the clamp gives 0, above 255 it gives 255. *)
Lemma clamp_below (e : float) :
  (e <? 0)%float = true -> Math_max 0 (Math_min 255 e) = 0%float.
Proof.
  intros L. destruct (ltb_not_nan _ _ L) as [Ne _].
  assert (M : Math_min 255 e = e).
  { unfold Math_min. rewrite Ne. cbn [is_nan orb].
    change (is_nan 255) with false. cbn [orb].
    assert (A : (255 <? e)%float = false /\ (e <? 255)%float = true).
    { rewrite ltb_spec in L. rewrite !ltb_spec.
      change (Prim2SF 0) with (S754_zero false) in L.
      destruct (Prim2SF e) as [s|[|]| |[|] m x]; try discriminate L;
        split; reflexivity. }
    destruct A as [-> ->]. reflexivity. }
  rewrite M. unfold Math_max. rewrite Ne.
  change (is_nan 0) with false. cbn [orb].
  assert (A : (0 <? e)%float = false).
  { rewrite ltb_spec in L. rewrite ltb_spec.
    change (Prim2SF 0) with (S754_zero false) in *.
    destruct (Prim2SF e) as [s|[|]| |[|] m x]; try discriminate L; reflexivity. }
  rewrite A, L. reflexivity.
Qed.

Lemma clamp_above (e : float) :
  (255 <? e)%float = true -> Math_max 0 (Math_min 255 e) = 255%float.
Proof.
  intros L. destruct (ltb_not_nan _ _ L) as [_ Ne].
  unfold Math_min. rewrite Ne. change (is_nan 255) with false. cbn [orb].
  rewrite L. vm_compute. reflexivity.
Qed.

(* ====================================================================== *)
(** ** GainQParam *)
(* ====================================================================== *)

(** [Math_round] on a few Numbers: ties go towards +infinity, and the
    product of the binary64 nearest to 1.15 with 10 is exactly 11.5, that
    of -0.75 with 10 exactly -7.5. *)
Example Math_round_samples :
  Math_round 2.5 = 3%float
  /\ Math_round (-2.5) = (-2)%float
  /\ Math_round 0.49999999999999994 = 0%float
  /\ Math_round (1.15 * 10) = 12%float
  /\ Math_round (-0.75 * 10) = (-7)%float
  /\ (0.7 * 10 = 7)%float.
Proof. repeat split; vm_compute; reflexivity. Qed.

(** Outside the interval the result is clamped, and NaN stays NaN: the
    clamp does not turn it into a byte (stored into the payload it is 0). *)
Example encodeGain_out_of_range :
  encodeGain 20 = 255%float
  /\ encodeGain (-20) = 0%float
  /\ encodeGain infinity = 255%float
  /\ encodeGain nan = nan
  /\ Number_ToUint8 (encodeGain nan) = 0.
Proof. repeat split; vm_compute; reflexivity. Qed.

(** On the grid of tenths that is not clamped, [encodeGain] is exact. *)
Lemma encodeGain_tenths_check :
  forallb (fun k => PrimFloat.Leibniz.eqb (encodeGain (of_Z k / 10))
                                          (of_Z (k + 120)))
          unclamped = true.
Proof. vm_compute. reflexivity. Qed.

(** C4, as the specification states it, fails.  -0.75 is exactly -3/4 and
    its product with 10 is exactly -7.5, a tie: both rounding modes of the
    specification take it to -8, hence to the byte 112, while Math.round
    takes it to -7 and [encodeGain] returns 113. *)
Lemma encodeGain_rounding_counterexample :
  Number_fraction (-0.75) = Some (-3 * 2 ^ 51, 4 * 2 ^ 51)
  /\ spec_encodeGain spec_round_half_even (-3 * 2 ^ 51) (4 * 2 ^ 51) = 112
  /\ spec_encodeGain spec_round_half_away (-3 * 2 ^ 51) (4 * 2 ^ 51) = 112
  /\ encodeGain (-0.75) = 113%float
  /\ ~ (exists round,
          (round = spec_round_half_even \/ round = spec_round_half_away)
          /\ forall db n d,
               Number_fraction db = Some (n, d) ->
               encodeGain db = of_Z (spec_encodeGain round n d)).
Proof.
  split; [vm_compute; reflexivity|].
  split; [vm_compute; reflexivity|].
  split; [vm_compute; reflexivity|].
  split; [vm_compute; reflexivity|].
  intros (round & M & H).
  specialize (H (-0.75)%float (-3 * 2 ^ 51) (4 * 2 ^ 51) eq_refl).
  apply (f_equal Number_ToUint8) in H.
  destruct M as [-> | ->]; vm_compute in H; discriminate H.
Qed.

(** C4, amended. [encodeGain] is Math.round(db * 10) + 120 clamped to
    [0, 255], where Math.round takes the nearest integer and a tie goes
    towards +infinity: when the exact value x of the product db * 10
    satisfies k - 1/2 <= x < k + 1/2 for an integer k with
    -120 <= k <= 135, the result is k + 120; when the rounded sum is below
    0 the result is 0, and when it is above 255 the result is 255.  For
    every db with -12.0 <= db <= 13.5 the result lies in [0, 255]; for the
    binary64 nearest to k/10, -120 <= k <= 135, the result is k + 120; and
    encodeGain(-12.0) = 0, encodeGain(0.0) = 120, encodeGain(13.5) = 255. *)
Theorem encodeGain_clamped (db : float) :
  (forall n d k,
      Number_fraction (db * 10) = Some (n, d) ->
      (2 * k - 1) * d <= 2 * n < (2 * k + 1) * d ->
      -120 <= k <= 135 ->
      encodeGain db = of_Z (k + 120))
  /\ ((Math_round (db * 10) + 120 <? 0)%float = true ->
      encodeGain db = 0%float)
  /\ ((255 <? Math_round (db * 10) + 120)%float = true ->
      encodeGain db = 255%float)
  /\ ((-12 <=? db)%float = true -> (db <=? 13.5)%float = true ->
      (0 <=? encodeGain db)%float = true
      /\ (encodeGain db <=? 255)%float = true)
  /\ (forall k, -120 <= k <= 135 -> db = (of_Z k / 10)%float ->
      encodeGain db = of_Z (k + 120))
  /\ encodeGain (-12)%float = 0%float
  /\ encodeGain 0%float = 120%float
  /\ encodeGain 13.5%float = 255%float.
Proof.
  split; [|split; [|split; [|split; [|split]]]].
  - intros n d k F B Hk. exact (clamp_round_nearest _ n d k F B Hk).
  - apply clamp_below.
  - apply clamp_above.
  - intros L _. apply encodeGain_range. apply (leb_not_nan _ _ L).
  - intros k Hk ->.
    pose proof encodeGain_tenths_check as C.
    rewrite forallb_forall in C.
    apply Leibniz.eqb_spec. apply C. apply unclamped_spec. exact Hk.
  - repeat split; vm_compute; reflexivity.
Qed.

Lemma encodeGain_clamped_witness :
  encodeGain (-0.75) = of_Z (-7 + 120)
  /\ encodeGain (-20) = 0%float
  /\ encodeGain 20 = 255%float
  /\ ((0 <=? encodeGain 1.15)%float = true
      /\ (encodeGain 1.15 <=? 255)%float = true)
  /\ encodeGain (of_Z 60 / 10) = of_Z (60 + 120).
Proof.
  split; [|split; [|split; [|split]]].
  - refine (proj1 (encodeGain_clamped (-0.75)%float)
              (-15 * 2 ^ 49) (2 ^ 50) (-7) _ _ _).
    + vm_compute. reflexivity.
    + lia.
    + lia.
  - apply (proj1 (proj2 (encodeGain_clamped (-20)%float))).
    vm_compute. reflexivity.
  - apply (proj1 (proj2 (proj2 (encodeGain_clamped 20%float)))).
    vm_compute. reflexivity.
  - apply (proj1 (proj2 (proj2 (proj2 (encodeGain_clamped 1.15%float)))));
      vm_compute; reflexivity.
  - apply (proj1 (proj2 (proj2 (proj2 (proj2
             (encodeGain_clamped (of_Z 60 / 10)%float))))) 60).
    + lia.
    + reflexivity.
Defined.



(* ====================================================================== *)
(** ** EqState: the custom-EQ payload *)
(* ====================================================================== *)

(** The payload is the list of the eight triplets. *)
Lemma customEqPayload_bands (st : state) :
  customEqPayload st
  = flat_map (fun i => [Z.of_nat i;
                        Number_ToUint8 (array_get (bandGains st) i);
                        Number_ToUint8 (array_get (bandQs st) i)])
             (seq 0 NUM_BANDS).
Proof.
  unfold customEqPayload.
  generalize (bandGains st) as gains, (bandQs st) as qs. intros gains qs.
  cbv - [Number_ToUint8 array_get]. reflexivity.
Qed.

Lemma array_get_set_0 (a : list float) (v : float) :
  array_get (array_set a 0 v) 0 = v.
Proof. destruct a; reflexivity. Qed.

(** The same band edit through [applyCustomPreset]: a preset whose band 0
    is (6.0, 0.7) and whose other bands are flat. *)
Example applyBands_band0 :
  exists st,
    applyBands [(6.0, 0.7); (0, 0.7); (0, 0.7); (0, 0.7);
                (0, 0.7); (0, 0.7); (0, 0.7); (0, 0.7)]%float
      NUM_BANDS 0 initial = Ok st
    /\ customEqPayload st
       = [0; 0xB4; 7; 1; 0x78; 7; 2; 0x78; 7; 3; 0x78; 7;
          4; 0x78; 7; 5; 0x78; 7; 6; 0x78; 7; 7; 0x78; 7].
Proof. eexists. split; vm_compute; reflexivity. Qed.

Lemma Number_ToUint8_byte (x : float) : byte (Number_ToUint8 x).
Proof.
  unfold Number_ToUint8, byte.
  destruct (Prim2SF x) as [s|s| |s m e]; try lia.
  apply Z.mod_pos_bound. lia.
Qed.

Lemma customEqPayload_bytes (st : state) : Forall byte (customEqPayload st).
Proof.
  rewrite customEqPayload_bands.
  cbn [NUM_BANDS FREQUENCIES List.length seq flat_map app].
  repeat (constructor;
          [first [apply Number_ToUint8_byte | unfold byte; cbn; lia]|]).
  constructor.
Qed.

(** What a returning [sendCommand] has done: on a null characteristic it
    has logged the error, otherwise the write was accepted and the frame
    recorded; the band state and the info card are never touched. *)
Lemma sendCommand_inv (accepted : bool) (data : Uint8Array) (st st' : state) :
  sendCommand accepted data st = Ok st' ->
  bandGains st' = bandGains st /\ bandQs st' = bandQs st
  /\ infoCard st' = infoCard st /\ writeChar st' = writeChar st
  /\ ((writeChar st = false
       /\ written st' = written st
       /\ logEl st' = logEl st ++ [ErrorNotConnected])
      \/ (writeChar st = true /\ accepted = true
          /\ written st' = written st ++ [data]
          /\ logEl st' = logEl st ++ [TX data])).
Proof.
  unfold sendCommand, writeValueWithoutResponse.
  destruct (writeChar st) eqn:W; cbn [negb].
  - destruct accepted; [|discriminate]. intros H. injection H as <-.
    repeat split; try exact W. right. repeat split.
  - intros H. injection H as <-. repeat split; try exact W. left. repeat split.
Qed.

(** The frame [sendCustomEQ] hands to [sendCommand]. *)
Lemma sendCustomEQ_eq (accepted : bool) (st : state) :
  sendCustomEQ accepted st
  = (st' <- sendCommand accepted
              ([0x51; 0x58; 0x57; 0x20; 0x03; 24] ++ customEqPayload st) st ;;
     Ok (log CustomEqApplied st')).
Proof.
  unfold sendCustomEQ. rewrite buildPacket_frame.
  rewrite (map_ToUint8_bytes _ (customEqPayload_bytes st)).
  replace (len (customEqPayload st)) with 24
    by (rewrite customEqPayload_bands; reflexivity).
  reflexivity.
Qed.

(** On an open link that accepts the write [sendCustomEQ] writes one frame:
    the custom-EQ header with length byte 24, then the payload. *)
Lemma sendCustomEQ_frame (st : state) :
  writeChar st = true ->
  exists st',
    sendCustomEQ true st = Ok st'
    /\ written st'
       = written st ++ [[0x51; 0x58; 0x57; 0x20; 0x03; 24] ++ customEqPayload st].
Proof.
  intros W. rewrite sendCustomEQ_eq.
  unfold sendCommand, writeValueWithoutResponse. rewrite W. cbn [negb JS.bind].
  eexists. split; reflexivity.
Qed.

(** C5. The payload [sendCustomEQ] builds always has 24 bytes: for every
    band i in 0..7 the byte at offset i*3 is i and the next two bytes are the
    band's encoded gain and Q.  It depends on nothing but the band state,
    which sending leaves as it is, and after setBand(0, 6.0, 0.7) it begins
    with 00 B4 07. *)
Theorem customEqPayload_layout (st : state) :
  len (customEqPayload st) = 24
  /\ (forall i, (i < 8)%nat ->
        get (customEqPayload st) (Z.of_nat i * 3) = Some (Z.of_nat i)
        /\ get (customEqPayload st) (Z.of_nat i * 3 + 1)
           = Some (Number_ToUint8 (array_get (bandGains st) i))
        /\ get (customEqPayload st) (Z.of_nat i * 3 + 2)
           = Some (Number_ToUint8 (array_get (bandQs st) i)))
  /\ (forall st', bandGains st' = bandGains st -> bandQs st' = bandQs st ->
        customEqPayload st' = customEqPayload st)
  /\ (forall accepted st', sendCustomEQ accepted st = Ok st' ->
        bandGains st' = bandGains st /\ bandQs st' = bandQs st)
  /\ (forall st', setBand 0 6.0 0.7 st = Ok st' ->
        firstn 3 (customEqPayload st') = [0x00; 0xB4; 0x07]).
Proof.
  split; [|split; [|split; [|split]]].
  - rewrite customEqPayload_bands. reflexivity.
  - intros i Hi. rewrite customEqPayload_bands.
    do 8 (destruct i as [|i]; [repeat split; reflexivity|]). lia.
  - intros st' G Q. unfold customEqPayload. rewrite G, Q. reflexivity.
  - intros accepted st' H. rewrite sendCustomEQ_eq in H.
    destruct (sendCommand accepted _ st) as [st1|e] eqn:S; [|discriminate H].
    cbn [JS.bind] in H. injection H as <-.
    destruct (sendCommand_inv _ _ _ _ S) as (G & Q & _).
    split; [exact G|exact Q].
  - intros st' H. unfold setBand in H. cbn [Z.ltb Z.compare orb] in H.
    injection H as <-. rewrite customEqPayload_bands.
    cbn [NUM_BANDS FREQUENCIES List.length seq flat_map app firstn
         storeBand bandGains bandQs Z.to_nat].
    rewrite !array_get_set_0. vm_compute. reflexivity.
Qed.

Lemma customEqPayload_layout_witness :
  (get (customEqPayload initial) (Z.of_nat 5 * 3) = Some (Z.of_nat 5)
   /\ get (customEqPayload initial) (Z.of_nat 5 * 3 + 1)
      = Some (Number_ToUint8 (array_get (bandGains initial) 5))
   /\ get (customEqPayload initial) (Z.of_nat 5 * 3 + 2)
      = Some (Number_ToUint8 (array_get (bandQs initial) 5)))
  /\ firstn 3 (customEqPayload
                 (storeBand 0 (encodeGain 6.0) (encodeQ 0.7) initial))
     = [0x00; 0xB4; 0x07].
Proof.
  split.
  - apply (proj1 (proj2 (customEqPayload_layout initial)) 5%nat). lia.
  - apply (proj2 (proj2 (proj2 (proj2 (customEqPayload_layout initial))))).
    reflexivity.
Defined.

(* ====================================================================== *)
(** ** Further facts about the device-info parser *)
(* ====================================================================== *)

Lemma get_nth_error (a : Uint8Array) (i : Z) :
  0 <= i -> get a i = nth_error a (Z.to_nat i).
Proof.
  intros H. unfold get. destruct (i <? 0) eqn:E; [apply Z.ltb_lt in E; lia|].
  reflexivity.
Qed.

Lemma get_app_left (a b : Uint8Array) (i : Z) :
  0 <= i < len a -> get (a ++ b) i = get a i.
Proof.
  intros H. rewrite !get_nth_error by lia.
  apply nth_error_app1. unfold len in H. lia.
Qed.

Lemma get_app_right (a b : Uint8Array) (i : Z) :
  len a <= i -> get (a ++ b) i = get b (i - len a).
Proof.
  intros H. pose proof (len_nonneg a) as N.
  rewrite !get_nth_error by lia.
  rewrite nth_error_app2 by (unfold len in H; lia).
  f_equal. unfold len. lia.
Qed.

Lemma len_cons {A : Type} (x : A) (a : list A) : len (x :: a) = 1 + len a.
Proof. unfold len. cbn [List.length]. lia. Qed.

Lemma get_In (a : Uint8Array) (i b : Z) : get a i = Some b -> In b a.
Proof.
  unfold get. destruct (i <? 0); [discriminate|]. apply nth_error_In.
Qed.

Lemma slice_middle (pre run tail : Uint8Array) (x : Z) :
  slice (pre ++ x :: run ++ tail) (len pre + 1) (len pre + 1 + len run) = run.
Proof.
  pose proof (len_nonneg pre) as Np. pose proof (len_nonneg run) as Nr.
  pose proof (len_nonneg tail) as Nt.
  assert (L : len (pre ++ x :: run ++ tail) = len pre + 1 + len run + len tail).
  { rewrite len_app, len_cons, len_app. lia. }
  unfold slice, rel_index. rewrite L.
  destruct (len pre + 1 <? 0) eqn:E1; [apply Z.ltb_lt in E1; lia|].
  destruct (len pre + 1 + len run <? 0) eqn:E2; [apply Z.ltb_lt in E2; lia|].
  rewrite !Z.min_l by lia.
  replace (Z.to_nat (len pre + 1)) with (1 + List.length pre)%nat
    by (unfold len; lia).
  replace (Z.to_nat (len pre + 1 + len run - (len pre + 1)))
    with (List.length run) by (unfold len; lia).
  rewrite <- skipn_skipn. rewrite skipn_app, skipn_all, Nat.sub_diag.
  cbn [skipn app].
  rewrite firstn_app, firstn_all, Nat.sub_diag. cbn [firstn].
  apply app_nil_r.
Qed.

(** A length-prefixed printable run is accepted where it stands. *)
Lemma spec_accepts_run (pre run tail : Uint8Array) :
  0 < len run < 32 -> Forall spec_printable run ->
  spec_accepts (pre ++ len run :: run ++ tail) (len pre) (len run).
Proof.
  intros Hr Hp. pose proof (len_nonneg pre) as Np.
  pose proof (len_nonneg tail) as Nt.
  unfold spec_accepts. split; [|split; [exact Hr|split]].
  - rewrite get_app_right by lia. rewrite Z.sub_diag. reflexivity.
  - rewrite len_app, len_cons, len_app. lia.
  - rewrite slice_middle. exact Hp.
Qed.

(** Behind the prefix, no byte of the run or of an inert tail is an
    acceptable length prefix. *)
Lemma no_prefix_behind (pre run tail : Uint8Array) (x j m : Z) :
  Forall spec_printable run ->
  Forall (fun b => b <= 0 \/ 32 <= b) tail ->
  len pre < j ->
  ~ spec_accepts (pre ++ x :: run ++ tail) j m.
Proof.
  intros Hp Ht Hj (G & B & _).
  pose proof (len_nonneg pre) as Np.
  rewrite get_app_right in G by lia.
  change (x :: run ++ tail) with ([x] ++ run ++ tail) in G.
  rewrite get_app_right in G by (change (len [x]) with 1; lia).
  apply get_In in G. apply in_app_or in G. destruct G as [G|G].
  - rewrite Forall_forall in Hp. apply Hp in G. unfold spec_printable in G. lia.
  - rewrite Forall_forall in Ht. apply Ht in G. lia.
Qed.

(** X1. A device-info payload that holds, after at least five bytes, a
    length byte followed by that many printable bytes (1 to 31 of them) and
    then only bytes that cannot be a length prefix (0 or at least 32) is
    shown with exactly that run as its name, and with payload[2] and
    payload[3] as battery levels, whatever the bytes before the run are. *)
Theorem parseDeviceInfo_finds_name (pre run tail : Uint8Array) (st : state) :
  5 <= len pre -> 0 < len run < 32 -> Forall spec_printable run ->
  Forall (fun b => b <= 0 \/ 32 <= b) tail ->
  parseDeviceInfo (pre ++ len run :: run ++ tail) st
  = let info := {| batteryLeft := get pre 2;
                   batteryRight := get pre 3;
                   deviceName := spec_decode_name run |} in
    updateInfoCard info (log (Battery info) st).
Proof.
  intros H5 Hr Hp Ht.
  set (payload := pre ++ len run :: run ++ tail).
  pose proof (len_nonneg run) as Nr. pose proof (len_nonneg tail) as Nt.
  assert (L : len payload = len pre + 1 + len run + len tail).
  { unfold payload. rewrite len_app, len_cons, len_app. lia. }
  assert (A0 : spec_accepts payload (len pre) (len run))
    by (apply spec_accepts_run; assumption).
  assert (N : scanName payload (List.length payload) = spec_decode_name run).
  { destruct (scanName_rightmost payload (List.length payload))
      as [(i & n & Hi & A & Rm & Eq)|(None & _)]; [lia| |].
    - destruct (Z_lt_dec (len pre) i) as [Hgt|Hle].
      + exfalso. revert A. apply no_prefix_behind; assumption.
      + destruct (Z.eq_dec i (len pre)) as [->|Hne].
        * destruct A as (G & _). destruct A0 as (G0 & _).
          rewrite G0 in G. injection G as <-.
          rewrite Eq. unfold payload. rewrite slice_middle. reflexivity.
        * exfalso. apply (Rm (len pre) (len run)); [|exact A0].
          fold (len payload). lia.
    - exfalso. apply (None (len pre) (len run)); [|exact A0].
      fold (len payload). lia. }
  unfold parseDeviceInfo.
  destruct (len payload <? 5) eqn:E; [apply Z.ltb_lt in E; lia|].
  rewrite N. unfold payload. rewrite !get_app_left by lia. reflexivity.
Qed.

Lemma parseDeviceInfo_finds_name_witness :
  parseDeviceInfo ([1; 3; 100; 100; 0] ++ len [0x48; 0x69] :: [0x48; 0x69] ++ [0; 0x80]) initial
  = let info := {| batteryLeft := get [1; 3; 100; 100; 0] 2;
                   batteryRight := get [1; 3; 100; 100; 0] 3;
                   deviceName := spec_decode_name [0x48; 0x69] |} in
    updateInfoCard info (log (Battery info) initial).
Proof.
  apply (parseDeviceInfo_finds_name [1; 3; 100; 100; 0] [0x48; 0x69] [0; 0x80] initial).
  - unfold len. simpl. lia.
  - unfold len. simpl. lia.
  - repeat constructor; unfold spec_printable; lia.
  - repeat constructor; lia.
Defined.

Lemma list_ascii_of_spec_decode_name (bs : list Z) :
  list_ascii_of_string (spec_decode_name bs)
  = map (fun b => ascii_of_N (Z.to_N b)) bs.
Proof. induction bs as [|b bs IH]; simpl; [reflexivity|now rewrite IH]. Qed.

Lemma printable_spec_decode_name (bs : list Z) :
  Forall spec_printable bs -> printable_string (spec_decode_name bs).
Proof.
  intros H. unfold printable_string. rewrite list_ascii_of_spec_decode_name.
  apply Forall_map. revert H. apply Forall_impl. intros b Hb.
  unfold spec_printable in Hb. unfold nat_of_ascii.
  rewrite N_ascii_embedding by lia. lia.
Qed.

(** X2. Whatever bytes a device-info payload of at least five bytes holds,
    the name shown is shorter than 32 characters and made of printable
    ASCII only, and a name that is not empty needs a payload of at least
    its length plus six bytes. *)
Theorem parseDeviceInfo_name_printable (payload : Uint8Array) (st : state) :
  5 <= len payload ->
  exists info,
    parseDeviceInfo payload st = updateInfoCard info (log (Battery info) st)
    /\ (String.length (deviceName info) < 32)%nat
    /\ printable_string (deviceName info)
    /\ (deviceName info <> EmptyString ->
        Z.of_nat (String.length (deviceName info)) + 6 <= len payload).
Proof.
  intros L. unfold parseDeviceInfo.
  destruct (len payload <? 5) eqn:E; [apply Z.ltb_lt in E; lia|].
  eexists. split; [reflexivity|]. cbn [deviceName].
  destruct (scanName_rightmost payload (List.length payload))
    as [(i & n & Hi & A & _ & ->)|(_ & ->)]; [lia| |].
  - destruct A as (_ & Hn & Hb & Hp).
    assert (SL : len (slice payload (i + 1) (i + 1 + n)) = i + 1 + n - (i + 1))
      by (apply slice_length; lia).
    rewrite length_spec_decode_name. unfold len in SL.
    split; [lia|]. split; [apply printable_spec_decode_name; exact Hp|].
    intros _. lia.
  - split; [cbn; lia|]. split; [constructor|]. intros H. now elim H.
Qed.

Lemma parseDeviceInfo_name_printable_witness :
  exists info,
    parseDeviceInfo [1; 3; 100; 100; 0; 3; 0x41; 0x07; 0x42] initial
    = updateInfoCard info (log (Battery info) initial)
    /\ (String.length (deviceName info) < 32)%nat
    /\ printable_string (deviceName info)
    /\ (deviceName info <> EmptyString ->
        Z.of_nat (String.length (deviceName info)) + 6
        <= len [1; 3; 100; 100; 0; 3; 0x41; 0x07; 0x42]).
Proof.
  apply (parseDeviceInfo_name_printable [1; 3; 100; 100; 0; 3; 0x41; 0x07; 0x42] initial).
  unfold len. simpl. lia.
Defined.

(* ====================================================================== *)
(** ** Further facts about the notification handler *)
(* ====================================================================== *)

(** X3. A notification never touches the link or the band state: when the
    handler returns, the write characteristic, the frames written, the band
    gains and the band Qs are as before, the log has gained exactly two
    lines, the raw trace and one event, and the info card is unchanged
    unless that event is a battery report. *)
Theorem onNotification_frame (value : Uint8Array) (st st' : state) :
  onNotification value st = Ok st' ->
  writeChar st' = writeChar st
  /\ written st' = written st
  /\ bandGains st' = bandGains st
  /\ bandQs st' = bandQs st
  /\ exists line,
       logEl st' = logEl st ++ [RX value; line]
       /\ (infoCard st' = infoCard st
           \/ exists info, line = Battery info /\ infoCard st' = Some info).
Proof.
  unfold onNotification. intros H.
  assert (Simple : forall line,
            Ok (log line (log (RX value) st)) = Ok st' ->
            writeChar st' = writeChar st
            /\ written st' = written st
            /\ bandGains st' = bandGains st
            /\ bandQs st' = bandQs st
            /\ exists line',
                 logEl st' = logEl st ++ [RX value; line']
                 /\ (infoCard st' = infoCard st
                     \/ exists info, line' = Battery info
                                     /\ infoCard st' = Some info)).
  { intros line E. injection E as <-. repeat split.
    exists line. split; [|left; reflexivity].
    cbn [log logEl]. rewrite <- app_assoc. reflexivity. }
  destruct ((len value <? 5) || strict_neq (get value 0) 81
            || strict_neq (get value 1) 88 || strict_neq (get value 2) 87);
    [exact (Simple _ H)|].
  destruct (strict_eq (get value 3) CMD_DEVICE_INFO && strict_eq (get value 4) 2).
  - injection H as <-. unfold parseDeviceInfo.
    destruct (len (slice_from value 5) <? 5).
    + repeat split. exists PayloadTooShort. split; [|left; reflexivity].
      cbn [log logEl]. rewrite <- app_assoc. reflexivity.
    + repeat split. eexists. split.
      * cbn [updateInfoCard log logEl]. rewrite <- app_assoc. reflexivity.
      * right. eexists. split; reflexivity.
  - destruct (strict_eq (get value 3) CMD_SELECT_EQ); [exact (Simple _ H)|].
    destruct (strict_eq (get value 3) CMD_CUSTOM_EQ); [exact (Simple _ H)|].
    destruct (get value 3); [exact (Simple _ H)|discriminate H].
Qed.

Lemma onNotification_frame_witness :
  writeChar (log CustomEqConfirmed (log (RX [0x51; 0x58; 0x57; 0x20; 0x03]) initial))
  = writeChar initial
  /\ written (log CustomEqConfirmed (log (RX [0x51; 0x58; 0x57; 0x20; 0x03]) initial))
     = written initial
  /\ bandGains (log CustomEqConfirmed (log (RX [0x51; 0x58; 0x57; 0x20; 0x03]) initial))
     = bandGains initial
  /\ bandQs (log CustomEqConfirmed (log (RX [0x51; 0x58; 0x57; 0x20; 0x03]) initial))
     = bandQs initial
  /\ exists line,
       logEl (log CustomEqConfirmed (log (RX [0x51; 0x58; 0x57; 0x20; 0x03]) initial))
       = logEl initial ++ [RX [0x51; 0x58; 0x57; 0x20; 0x03]; line]
       /\ (infoCard (log CustomEqConfirmed
                       (log (RX [0x51; 0x58; 0x57; 0x20; 0x03]) initial))
           = infoCard initial
           \/ exists info,
                line = Battery info
                /\ infoCard (log CustomEqConfirmed
                               (log (RX [0x51; 0x58; 0x57; 0x20; 0x03]) initial))
                   = Some info).
Proof.
  apply (onNotification_frame [0x51; 0x58; 0x57; 0x20; 0x03] initial).
  reflexivity.
Defined.

Lemma slice_from_skipn (a : Uint8Array) (k : Z) :
  0 <= k <= len a -> slice_from a k = skipn (Z.to_nat k) a.
Proof.
  intros H. unfold slice_from, slice, rel_index.
  destruct (k <? 0) eqn:E1; [apply Z.ltb_lt in E1; lia|].
  destruct (len a <? 0) eqn:E2; [apply Z.ltb_lt in E2; lia|].
  rewrite !Z.min_l by lia.
  apply firstn_all2. rewrite length_skipn. unfold len. lia.
Qed.

Lemma get_skipn (a : Uint8Array) (k : nat) (i : Z) :
  0 <= i -> get (skipn k a) i = get a (i + Z.of_nat k).
Proof.
  intros H. rewrite !get_nth_error by lia.
  rewrite nth_error_skipn. f_equal. lia.
Qed.

(** X4. For a notification that starts 51 58 57 27 02 the device-info
    payload begins at offset 5 of the packet: a packet of fewer than 10
    bytes is dropped as too short, and a packet of at least 10 bytes is shown
    with the battery levels found at offsets 7 and 8 of the packet. *)
Theorem onNotification_deviceInfo_offsets (value : Uint8Array) (st : state) :
  firstn 5 value = [0x51; 0x58; 0x57; 0x27; 0x02] ->
  (len value < 10 ->
   onNotification value st = Ok (log PayloadTooShort (log (RX value) st)))
  /\ (10 <= len value ->
      exists name,
        onNotification value st
        = let info := {| batteryLeft := get value 7;
                         batteryRight := get value 8;
                         deviceName := name |} in
          Ok (updateInfoCard info (log (Battery info) (log (RX value) st)))).
Proof.
  intros P.
  assert (L5 : 5 <= len value).
  { apply (f_equal (@List.length Z)) in P. rewrite length_firstn in P.
    cbn [List.length] in P. unfold len. lia. }
  destruct (five_bytes value L5) as (a & b & c & d & e & rest & ->).
  cbn [firstn] in P. injection P as -> -> -> -> ->.
  set (value := 81 :: 88 :: 87 :: 39 :: 2 :: rest) in *.
  destruct (onNotification_dispatch value st L5 eq_refl)
    as (cmd & sub & G3 & G4 & E).
  injection G3 as <-. injection G4 as <-.
  rewrite E. cbv zeta. change ((39 =? CMD_DEVICE_INFO) && (2 =? 2)) with true.
  cbv iota.
  assert (S5 : slice_from value 5 = rest).
  { rewrite slice_from_skipn by lia. reflexivity. }
  assert (LR : len value = 5 + len rest).
  { unfold value. rewrite !len_cons. lia. }
  rewrite S5. unfold parseDeviceInfo. split.
  - intros Hs. destruct (len rest <? 5) eqn:C; [reflexivity|].
    apply Z.ltb_ge in C. lia.
  - intros Hl. destruct (len rest <? 5) eqn:C; [apply Z.ltb_lt in C; lia|].
    eexists. reflexivity.
Qed.

Lemma onNotification_deviceInfo_offsets_witness :
  onNotification [0x51; 0x58; 0x57; 0x27; 0x02; 1; 3; 100; 100] initial
  = Ok (log PayloadTooShort
          (log (RX [0x51; 0x58; 0x57; 0x27; 0x02; 1; 3; 100; 100]) initial)).
Proof.
  apply (proj1 (onNotification_deviceInfo_offsets
                  [0x51; 0x58; 0x57; 0x27; 0x02; 1; 3; 100; 100] initial eq_refl)).
  unfold len. simpl. lia.
Defined.

(* ====================================================================== *)
(** ** Further facts about the frame encoder *)
(* ====================================================================== *)

(** X5. [buildPacket] is injective on byte arguments: two frames are
    equal only if command, type and payload are equal, so a frame
    determines the triple it was built from. *)
Theorem buildPacket_injective (c1 t1 c2 t2 : Z) (p1 p2 : Uint8Array) :
  byte c1 -> byte t1 -> Forall byte p1 ->
  byte c2 -> byte t2 -> Forall byte p2 ->
  buildPacket c1 t1 (Some p1) = buildPacket c2 t2 (Some p2) ->
  c1 = c2 /\ t1 = t2 /\ p1 = p2.
Proof.
  intros Hc1 Ht1 Hp1 Hc2 Ht2 Hp2 E.
  rewrite !buildPacket_frame in E.
  rewrite (ToUint8_byte c1 Hc1), (ToUint8_byte t1 Ht1) in E.
  rewrite (ToUint8_byte c2 Hc2), (ToUint8_byte t2 Ht2) in E.
  rewrite (map_ToUint8_bytes p1 Hp1), (map_ToUint8_bytes p2 Hp2) in E.
  cbn [app] in E. injection E as -> -> _ ->. repeat split.
Qed.

Lemma buildPacket_injective_witness :
  0x10 = 0x10 /\ 0x01 = 0x01 /\ [3] = [3].
Proof.
  apply (buildPacket_injective 0x10 0x01 0x10 0x01 [3] [3]).
  - unfold byte. lia.
  - unfold byte. lia.
  - constructor; [unfold byte; lia|constructor].
  - unfold byte. lia.
  - unfold byte. lia.
  - constructor; [unfold byte; lia|constructor].
  - reflexivity.
Defined.

(** X6. [buildPacket] does not distinguish a null payload from an empty
    one, and it reduces the command and the type modulo 256 instead of
    rejecting them. *)
Theorem buildPacket_aliasing (cmd type : Z) (payload : option Uint8Array) :
  buildPacket cmd type None = buildPacket cmd type (Some [])
  /\ buildPacket (cmd + 256) type payload = buildPacket cmd type payload
  /\ buildPacket cmd (type + 256) payload = buildPacket cmd type payload.
Proof.
  assert (W : forall n, ToUint8 (n + 256) = ToUint8 n).
  { intros n. unfold ToUint8.
    replace (n + 256) with (n + 1 * 256) by lia. apply Z.mod_add. lia. }
  split; [reflexivity|].
  destruct payload as [p|].
  - rewrite !buildPacket_frame, !W. split; reflexivity.
  - rewrite !buildPacket_null, !W. split; reflexivity.
Qed.

(* ====================================================================== *)
(** ** Facts about the band arrays *)
(* ====================================================================== *)

Lemma array_replace_get (a : list float) (i j : nat) (v : float) :
  (i < List.length a)%nat ->
  array_get (array_replace a i v) j
  = if Nat.eqb i j then v else array_get a j.
Proof.
  unfold array_get. revert i j.
  induction a as [|x a IH]; intros i j H; cbn [List.length] in H; [lia|].
  destruct i as [|i], j as [|j]; cbn [array_replace nth Nat.eqb]; try reflexivity.
  apply IH. lia.
Qed.

(** Reading after a write: the written index holds the value, every other
    index reads as before, holes and reads past the end alike being NaN. *)
Lemma array_get_set (a : list float) (i j : nat) (v : float) :
  array_get (array_set a i v) j = if Nat.eqb i j then v else array_get a j.
Proof.
  unfold array_set.
  destruct (Nat.ltb_spec i (List.length a)) as [H|H];
    [apply array_replace_get; exact H|].
  unfold array_get.
  destruct (Nat.eqb_spec i j) as [->|Hne].
  - rewrite app_nth2 by lia. rewrite app_nth2 by (rewrite repeat_length; lia).
    rewrite repeat_length. rewrite Nat.sub_diag. reflexivity.
  - destruct (Nat.lt_ge_cases j (List.length a)) as [Hj|Hj].
    + rewrite app_nth1 by lia. reflexivity.
    + rewrite app_nth2 by lia. rewrite (nth_overflow a) by lia.
      destruct (Nat.lt_ge_cases (j - List.length a) (i - List.length a)) as [Hk|Hk].
      * rewrite app_nth1 by (rewrite repeat_length; lia). apply nth_repeat.
      * rewrite app_nth2 by (rewrite repeat_length; lia).
        rewrite repeat_length. apply nth_overflow. cbn [List.length]. lia.
Qed.

Lemma array_set_length (a : list float) (i : nat) (v : float) :
  (i < List.length a)%nat -> List.length (array_set a i v) = List.length a.
Proof.
  intros H. unfold array_set.
  destruct (Nat.ltb_spec i (List.length a)) as [_|H']; [|lia].
  revert i H. induction a as [|x a IH]; intros [|i] H; cbn in *; try lia.
  rewrite IH by lia. reflexivity.
Qed.

(** The bytes of band [j] in the payload. *)
Lemma customEqPayload_triplet (st : state) (j : nat) :
  (j < 8)%nat ->
  get (customEqPayload st) (Z.of_nat j * 3) = Some (Z.of_nat j)
  /\ get (customEqPayload st) (Z.of_nat j * 3 + 1)
     = Some (Number_ToUint8 (array_get (bandGains st) j))
  /\ get (customEqPayload st) (Z.of_nat j * 3 + 2)
     = Some (Number_ToUint8 (array_get (bandQs st) j)).
Proof.
  intros Hj. rewrite customEqPayload_bands.
  do 8 (destruct j as [|j]; [repeat split; reflexivity|]). lia.
Qed.

(** Two band states that read alike on the eight bands give one payload. *)
Lemma customEqPayload_ext (st1 st2 : state) :
  (forall j, (j < 8)%nat ->
     array_get (bandGains st1) j = array_get (bandGains st2) j
     /\ array_get (bandQs st1) j = array_get (bandQs st2) j) ->
  customEqPayload st1 = customEqPayload st2.
Proof.
  intros H. rewrite !customEqPayload_bands.
  cbn [NUM_BANDS FREQUENCIES List.length seq flat_map app].
  destruct (H 0%nat) as [-> ->]; [lia|]. destruct (H 1%nat) as [-> ->]; [lia|].
  destruct (H 2%nat) as [-> ->]; [lia|]. destruct (H 3%nat) as [-> ->]; [lia|].
  destruct (H 4%nat) as [-> ->]; [lia|]. destruct (H 5%nat) as [-> ->]; [lia|].
  destruct (H 6%nat) as [-> ->]; [lia|]. destruct (H 7%nat) as [-> ->]; [lia|].
  reflexivity.
Qed.

Lemma Number_ToUint8_of_Z_check :
  forallb (fun b => Number_ToUint8 (of_Z b) =? b) bytes256 = true.
Proof. vm_compute. reflexivity. Qed.

Lemma bytes256_spec (b : Z) : 0 <= b <= 255 -> In b bytes256.
Proof.
  intros H. unfold bytes256. apply in_map_iff.
  exists (Z.to_nat b). split; [lia|]. apply in_seq. lia.
Qed.

Lemma Number_ToUint8_of_Z (b : Z) : 0 <= b <= 255 -> Number_ToUint8 (of_Z b) = b.
Proof.
  intros H. pose proof Number_ToUint8_of_Z_check as C.
  rewrite forallb_forall in C. apply Z.eqb_eq. apply C.
  apply bytes256_spec. exact H.
Qed.

(** X7. Storing a gain and a Q for band i < 8 changes the payload of the
    next custom-EQ frame at the two bytes of that band only: they become
    the stored values converted to bytes, and the gain and Q bytes of every
    other band stay as they were. *)
Theorem storeBand_local (i : nat) (gain q : float) (st : state) :
  (i < 8)%nat ->
  let st' := storeBand i gain q st in
  get (customEqPayload st') (Z.of_nat i * 3 + 1) = Some (Number_ToUint8 gain)
  /\ get (customEqPayload st') (Z.of_nat i * 3 + 2) = Some (Number_ToUint8 q)
  /\ (forall j, (j < 8)%nat -> j <> i ->
        get (customEqPayload st') (Z.of_nat j * 3 + 1)
        = get (customEqPayload st) (Z.of_nat j * 3 + 1)
        /\ get (customEqPayload st') (Z.of_nat j * 3 + 2)
           = get (customEqPayload st) (Z.of_nat j * 3 + 2)).
Proof.
  intros Hi st'.
  destruct (customEqPayload_triplet st' i Hi) as (_ & G & Q).
  rewrite G, Q. unfold st'. cbn [storeBand bandGains bandQs].
  rewrite !array_get_set, Nat.eqb_refl.
  split; [reflexivity|]. split; [reflexivity|].
  intros j Hj Hne.
  destruct (customEqPayload_triplet (storeBand i gain q st) j Hj) as (_ & G' & Q').
  destruct (customEqPayload_triplet st j Hj) as (_ & G0 & Q0).
  rewrite G', Q', G0, Q0. cbn [storeBand bandGains bandQs].
  rewrite !array_get_set.
  destruct (Nat.eqb_spec i j) as [->|_]; [contradiction|]. split; reflexivity.
Qed.

Lemma storeBand_local_witness :
  let st' := storeBand 2 200 9 initial in
  get (customEqPayload st') (Z.of_nat 2 * 3 + 1) = Some (Number_ToUint8 200)
  /\ get (customEqPayload st') (Z.of_nat 2 * 3 + 2) = Some (Number_ToUint8 9)
  /\ (forall j, (j < 8)%nat -> j <> 2%nat ->
        get (customEqPayload st') (Z.of_nat j * 3 + 1)
        = get (customEqPayload initial) (Z.of_nat j * 3 + 1)
        /\ get (customEqPayload st') (Z.of_nat j * 3 + 2)
           = get (customEqPayload initial) (Z.of_nat j * 3 + 2)).
Proof. apply (storeBand_local 2 200 9 initial). lia. Defined.

(** X8. Moving slider idx < 8 to the position value in 0..255 makes byte
    idx*3+1 of the custom-EQ payload equal to value and changes no other
    byte of the payload. *)
Theorem sliderInput_payload (idx : nat) (value : Z) (st : state) :
  (idx < 8)%nat -> 0 <= value <= 255 ->
  let st' := sliderInput idx value st in
  get (customEqPayload st') (Z.of_nat idx * 3 + 1) = Some value
  /\ (forall k, 0 <= k < 24 -> k <> Z.of_nat idx * 3 + 1 ->
        get (customEqPayload st') k = get (customEqPayload st) k).
Proof.
  intros Hi Hv st'.
  assert (Gains : forall j, array_get (bandGains st') j
                            = if Nat.eqb idx j then of_Z value
                              else array_get (bandGains st) j).
  { intros j. unfold st'. cbn [sliderInput bandGains]. apply array_get_set. }
  split.
  - destruct (customEqPayload_triplet st' idx Hi) as (_ & G & _).
    rewrite G, Gains, Nat.eqb_refl. rewrite Number_ToUint8_of_Z by exact Hv.
    reflexivity.
  - intros k Hk Hne.
    assert (T : exists j r, (j < 8)%nat /\ 0 <= r < 3 /\ k = Z.of_nat j * 3 + r).
    { exists (Z.to_nat (k / 3)), (k mod 3).
      pose proof (Z.mod_pos_bound k 3 ltac:(lia)).
      pose proof (Z.div_mod k 3 ltac:(lia)).
      assert (0 <= k / 3 < 8)
        by (split; [apply Z.div_pos; lia|apply Z.div_lt_upper_bound; lia]).
      split; [lia|]. split; [lia|]. lia. }
    destruct T as (j & r & Hj & Hr & ->).
    destruct (customEqPayload_triplet st' j Hj) as (I' & G' & Q').
    destruct (customEqPayload_triplet st j Hj) as (I0 & G0 & Q0).
    assert (R : r = 0 \/ r = 1 \/ r = 2) by lia.
    destruct R as [->|[->| ->]].
    + rewrite Z.add_0_r. rewrite I', I0. reflexivity.
    + rewrite G', G0, Gains.
      destruct (Nat.eqb_spec idx j) as [->|_]; [now elim Hne|reflexivity].
    + rewrite Q', Q0. reflexivity.
Qed.

Lemma sliderInput_payload_witness :
  let st' := sliderInput 3 200 initial in
  get (customEqPayload st') (Z.of_nat 3 * 3 + 1) = Some 200
  /\ (forall k, 0 <= k < 24 -> k <> Z.of_nat 3 * 3 + 1 ->
        get (customEqPayload st') k = get (customEqPayload initial) k).
Proof. apply (sliderInput_payload 3 200 initial); lia. Defined.

(* ====================================================================== *)
(** ** Facts about the commands *)
(* ====================================================================== *)

(** What a band edit leaves alone. *)
Lemma storeBand_frame (i : nat) (gain q : float) (st : state) :
  writeChar (storeBand i gain q st) = writeChar st
  /\ written (storeBand i gain q st) = written st
  /\ logEl (storeBand i gain q st) = logEl st
  /\ infoCard (storeBand i gain q st) = infoCard st.
Proof. repeat split. Qed.

(** The loop of [applyCustomPreset] reads the bands [i .. i + todo): it
    succeeds when the preset has them all and then has stored the encoded
    gain and Q of each, leaving every other band and the rest of the state
    alone. *)
Lemma applyBands_ok (bands : list (float * float)) (todo : nat) :
  forall (i : nat) (st : state),
    (i + todo <= List.length bands)%nat ->
    exists st',
      applyBands bands todo i st = Ok st'
      /\ writeChar st' = writeChar st
      /\ written st' = written st
      /\ logEl st' = logEl st
      /\ infoCard st' = infoCard st
      /\ forall j,
           array_get (bandGains st') j
           = (if (i <=? j)%nat && (j <? i + todo)%nat
              then encodeGain (clampGain (fst (nth j bands (nan, nan))))
              else array_get (bandGains st) j)
           /\ array_get (bandQs st') j
              = (if (i <=? j)%nat && (j <? i + todo)%nat
                 then encodeQ (snd (nth j bands (nan, nan)))
                 else array_get (bandQs st) j).
Proof.
  induction todo as [|todo IH]; intros i st H.
  - exists st. cbn [applyBands]. repeat split; try reflexivity;
      (destruct (Nat.leb_spec i j); cbn [andb]; [|reflexivity];
       destruct (Nat.ltb_spec j (i + 0)); [lia|reflexivity]).
  - cbn [applyBands].
    destruct (nth_error bands i) as [[gainDb qReal]|] eqn:N;
      [|apply nth_error_None in N; lia].
    destruct (IH (S i) (storeBand i (encodeGain (clampGain gainDb))
                          (encodeQ qReal) st)) as (st' & E & W & Wr & L & C & B);
      [lia|].
    exists st'. split; [exact E|].
    split; [exact W|]. split; [exact Wr|]. split; [exact L|]. split; [exact C|].
    intros j. destruct (B j) as [Bg Bq]. rewrite Bg, Bq.
    cbn [storeBand bandGains bandQs]. rewrite !array_get_set.
    apply (nth_error_nth _ _ (nan, nan)) in N.
    destruct (Nat.eqb_spec i j) as [->|Hne].
    + rewrite N. cbn [fst snd].
      destruct (Nat.leb_spec (S j) j); [lia|]. cbn [andb].
      rewrite Nat.leb_refl. cbn [andb].
      destruct (Nat.ltb_spec j (j + S todo)); [|lia]. split; reflexivity.
    + destruct (Nat.leb_spec (S i) j), (Nat.leb_spec i j); try lia; cbn [andb];
        try (split; reflexivity).
      destruct (Nat.ltb_spec j (S i + todo)), (Nat.ltb_spec j (i + S todo));
        try lia; split; reflexivity.
Qed.

(** It throws as soon as a band is missing. *)
Lemma applyBands_missing (bands : list (float * float)) (todo : nat) :
  forall (i : nat) (st : state),
    (i <= List.length bands < i + todo)%nat ->
    applyBands bands todo i st = Throw TypeError.
Proof.
  induction todo as [|todo IH]; intros i st H; [lia|].
  cbn [applyBands].
  destruct (nth_error bands i) as [[gainDb qReal]|] eqn:N; [|reflexivity].
  apply IH. assert (i < List.length bands)%nat; [|lia].
  apply nth_error_Some. congruence.
Qed.

(** The three outcomes of [sendCustomEQ]. *)
Lemma sendCustomEQ_closed (accepted : bool) (st : state) :
  writeChar st = false ->
  sendCustomEQ accepted st = Ok (log CustomEqApplied (log ErrorNotConnected st)).
Proof.
  intros W. rewrite sendCustomEQ_eq. unfold sendCommand. rewrite W. reflexivity.
Qed.

Lemma sendCustomEQ_rejected (st : state) :
  writeChar st = true -> sendCustomEQ false st = Throw DOMException.
Proof.
  intros W. rewrite sendCustomEQ_eq. unfold sendCommand. rewrite W. reflexivity.
Qed.

Lemma sendCustomEQ_inv (accepted : bool) (st st' : state) :
  sendCustomEQ accepted st = Ok st' ->
  exists st1,
    sendCommand accepted
      ([0x51; 0x58; 0x57; 0x20; 0x03; 24] ++ customEqPayload st) st = Ok st1
    /\ st' = log CustomEqApplied st1.
Proof.
  rewrite sendCustomEQ_eq. intros H.
  destruct (sendCommand accepted _ st) as [st1|e]; [|discriminate H].
  cbn [JS.bind] in H. injection H as <-. exists st1. split; reflexivity.
Qed.

(** [sendCustomEQ] returns unless the write is attempted and rejected. *)
Lemma sendCustomEQ_returns (accepted : bool) (st : state) :
  writeChar st = false \/ accepted = true ->
  exists st', sendCustomEQ accepted st = Ok st'.
Proof.
  intros H. rewrite sendCustomEQ_eq.
  unfold sendCommand, writeValueWithoutResponse.
  destruct (writeChar st) eqn:W; cbn [negb].
  - destruct H as [H| ->]; [discriminate H|]. eexists. reflexivity.
  - eexists. reflexivity.
Qed.

Lemma applyCustomPreset_inv
  (accepted : bool) (name : string) (bands : list (float * float))
  (st st' : state) :
  applyCustomPreset accepted name bands st = Ok st' ->
  exists st1 st2,
    applyBands bands NUM_BANDS 0 st = Ok st1
    /\ sendCommand accepted
         ([0x51; 0x58; 0x57; 0x20; 0x03; 24] ++ customEqPayload st1) st1 = Ok st2
    /\ st' = log (CustomPresetApplied name) (log CustomEqApplied st2).
Proof.
  unfold applyCustomPreset. intros H.
  destruct (applyBands bands NUM_BANDS 0 st) as [st1|e]; [|discriminate H].
  cbn [JS.bind] in H.
  destruct (sendCustomEQ accepted st1) as [s2|e] eqn:S; [|discriminate H].
  cbn [JS.bind] in H. injection H as <-.
  destruct (sendCustomEQ_inv _ _ _ S) as (st2 & C & ->).
  exists st1, st2. repeat split. exact C.
Qed.

Lemma NUM_BANDS_8 : NUM_BANDS = 8%nat.
Proof. reflexivity. Qed.

(** X9. [applyCustomPreset] throws a TypeError for a preset with fewer
    than 8 bands.  With 8 or more the bands beyond the eighth are ignored,
    and the call returns when the link is closed or accepts the write and
    fails with the rejection when an open link rejects it. *)
Theorem applyCustomPreset_band_count
  (accepted : bool) (name : string) (bands : list (float * float))
  (st : state) :
  ((List.length bands < 8)%nat ->
   applyCustomPreset accepted name bands st = Throw TypeError)
  /\ ((8 <= List.length bands)%nat ->
      applyCustomPreset accepted name (firstn 8 bands) st
      = applyCustomPreset accepted name bands st
      /\ (writeChar st = false \/ accepted = true ->
          exists st', applyCustomPreset accepted name bands st = Ok st')
      /\ (writeChar st = true -> accepted = false ->
          applyCustomPreset accepted name bands st = Throw DOMException)).
Proof.
  unfold applyCustomPreset. split.
  - intros H. rewrite applyBands_missing; [reflexivity|].
    rewrite NUM_BANDS_8. lia.
  - intros H.
    assert (Same : forall todo i s,
              (i + todo <= 8)%nat ->
              applyBands (firstn 8 bands) todo i s = applyBands bands todo i s).
    { induction todo as [|todo IH]; intros i s Hi; [reflexivity|].
      cbn [applyBands]. rewrite nth_error_firstn.
      destruct (Nat.ltb_spec i 8); [|lia].
      destruct (nth_error bands i) as [[g q]|]; [|reflexivity].
      apply IH. lia. }
    rewrite Same by (rewrite NUM_BANDS_8; lia).
    split; [reflexivity|].
    destruct (applyBands_ok bands NUM_BANDS 0 st) as (st1 & E & W1 & _);
      [rewrite NUM_BANDS_8; lia|].
    rewrite E. cbn [JS.bind]. split.
    + intros L. destruct (sendCustomEQ_returns accepted st1) as [st2 S];
        [rewrite W1; exact L|].
      rewrite S. cbn [JS.bind]. eexists. reflexivity.
    + intros W ->. rewrite sendCustomEQ_rejected by (rewrite W1; exact W).
      reflexivity.
Qed.

Lemma applyCustomPreset_band_count_witness :
  applyCustomPreset true "short" [(1.0, 0.7); (2.0, 0.7)]%float initial
  = Throw TypeError
  /\ exists st',
       applyCustomPreset true "flat" (repeat (0, 0.7)%float 9) initial = Ok st'.
Proof.
  split.
  - apply (proj1 (applyCustomPreset_band_count
                    true "short" [(1.0, 0.7); (2.0, 0.7)]%float initial)).
    cbn [List.length]. lia.
  - apply (proj2 (applyCustomPreset_band_count
                    true "flat" (repeat (0, 0.7)%float 9) initial)).
    + cbn [repeat List.length]. lia.
    + right. reflexivity.
Defined.



Lemma in_range_step (i j todo : nat) :
  ((i <=? j)%nat && (j <? i + S todo)%nat)
  = Nat.eqb i j || ((S i <=? j)%nat && (j <? S i + todo)%nat).
Proof.
  destruct (Nat.eqb_spec i j), (Nat.leb_spec i j), (Nat.leb_spec (S i) j),
    (Nat.ltb_spec j (i + S todo)), (Nat.ltb_spec j (S i + todo));
    try lia; reflexivity.
Qed.

(** The loop of [resetSliders] sets the bands [i .. i + todo) to 0 dB and
    the default Q and touches nothing else. *)
Lemma resetLoop_spec (todo : nat) :
  forall (i : nat) (st : state),
    writeChar (resetLoop todo i st) = writeChar st
    /\ written (resetLoop todo i st) = written st
    /\ logEl (resetLoop todo i st) = logEl st
    /\ infoCard (resetLoop todo i st) = infoCard st
    /\ forall j,
         array_get (bandGains (resetLoop todo i st)) j
         = (if (i <=? j)%nat && (j <? i + todo)%nat
            then GAIN_OFFSET else array_get (bandGains st) j)
         /\ array_get (bandQs (resetLoop todo i st)) j
            = (if (i <=? j)%nat && (j <? i + todo)%nat
               then DEFAULT_Q else array_get (bandQs st) j).
Proof.
  induction todo as [|todo IH]; intros i st.
  - cbn [resetLoop]. repeat split; try reflexivity;
      (destruct (Nat.leb_spec i j); cbn [andb]; [|reflexivity];
       destruct (Nat.ltb_spec j (i + 0)); [lia|reflexivity]).
  - cbn [resetLoop].
    destruct (IH (S i) (storeBand i GAIN_OFFSET DEFAULT_Q st))
      as (W & Wr & L & C & B).
    split; [exact W|]. split; [exact Wr|]. split; [exact L|]. split; [exact C|].
    intros j. destruct (B j) as [Bg Bq]. rewrite Bg, Bq.
    cbn [storeBand bandGains bandQs]. rewrite !array_get_set.
    rewrite in_range_step.
    destruct (Nat.eqb i j); cbn [orb];
      destruct ((S i <=? j)%nat && (j <? S i + todo)%nat); split; reflexivity.
Qed.

(** X11. From any state [resetSliders] makes all 8 bands 0 dB with the
    default Q, so that the custom-EQ payload is the one of the initial
    state, and it changes nothing else: nothing is sent and nothing is
    logged. *)
Theorem resetSliders_flat (st : state) :
  customEqPayload (resetSliders st) = customEqPayload initial
  /\ (forall j, (j < 8)%nat ->
        array_get (bandGains (resetSliders st)) j = GAIN_OFFSET
        /\ array_get (bandQs (resetSliders st)) j = DEFAULT_Q)
  /\ writeChar (resetSliders st) = writeChar st
  /\ written (resetSliders st) = written st
  /\ logEl (resetSliders st) = logEl st
  /\ infoCard (resetSliders st) = infoCard st.
Proof.
  unfold resetSliders.
  destruct (resetLoop_spec NUM_BANDS 0 st) as (W & Wr & L & C & B).
  assert (Flat : forall j, (j < 8)%nat ->
            array_get (bandGains (resetLoop NUM_BANDS 0 st)) j = GAIN_OFFSET
            /\ array_get (bandQs (resetLoop NUM_BANDS 0 st)) j = DEFAULT_Q).
  { intros j Hj. destruct (B j) as [Bg Bq]. rewrite Bg, Bq.
    unfold NUM_BANDS. cbn [FREQUENCIES List.length Nat.add Nat.leb andb].
    destruct (Nat.ltb_spec j 8); [split; reflexivity|lia]. }
  split; [|split; [exact Flat|repeat split; assumption]].
  apply customEqPayload_ext. intros j Hj.
  destruct (Flat j Hj) as [-> ->].
  do 8 (destruct j as [|j]; [split; reflexivity|]). lia.
Qed.

Lemma array_replace_length (a : list float) (i : nat) (v : float) :
  List.length (array_replace a i v) = List.length a.
Proof.
  revert i. induction a as [|x a IH]; intros [|i]; cbn [array_replace List.length];
    try reflexivity. now rewrite IH.
Qed.

Lemma storeBand_bands_ok (i : nat) (gain q : float) (st : state) :
  (i < 8)%nat -> bands_ok st -> bands_ok (storeBand i gain q st).
Proof.
  unfold bands_ok, NUM_BANDS. cbn [FREQUENCIES List.length storeBand bandGains bandQs].
  intros Hi [Hg Hq]. rewrite !array_set_length by lia. split; assumption.
Qed.

Lemma applyBands_bands_ok (bands : list (float * float)) (todo : nat) :
  forall (i : nat) (st st' : state),
    (i + todo <= 8)%nat -> bands_ok st ->
    applyBands bands todo i st = Ok st' -> bands_ok st'.
Proof.
  induction todo as [|todo IH]; intros i st st' Hi Hok E; cbn [applyBands] in E.
  - injection E as <-. exact Hok.
  - destruct (nth_error bands i) as [[g q]|]; [|discriminate E].
    refine (IH (S i) _ st' _ _ E); [lia|].
    apply storeBand_bands_ok; [lia|exact Hok].
Qed.

Lemma resetLoop_bands_ok (todo : nat) :
  forall (i : nat) (st : state),
    (i + todo <= 8)%nat -> bands_ok st -> bands_ok (resetLoop todo i st).
Proof.
  induction todo as [|todo IH]; intros i st Hi Hok; cbn [resetLoop]; [exact Hok|].
  apply IH; [lia|]. apply storeBand_bands_ok; [lia|exact Hok].
Qed.

Lemma sendCommand_bands_ok
  (accepted : bool) (data : Uint8Array) (st st' : state) :
  sendCommand accepted data st = Ok st' -> bands_ok st -> bands_ok st'.
Proof.
  intros S. destruct (sendCommand_inv _ _ _ _ S) as (G & Q & _).
  unfold bands_ok. rewrite G, Q. auto.
Qed.

Lemma onNotification_bands (value : Uint8Array) (st st' : state) :
  onNotification value st = Ok st' ->
  bandGains st' = bandGains st /\ bandQs st' = bandQs st.
Proof.
  unfold onNotification. intros H.
  destruct ((len value <? 5) || strict_neq (get value 0) 81
            || strict_neq (get value 1) 88 || strict_neq (get value 2) 87);
    [injection H as <-; split; reflexivity|].
  destruct (strict_eq (get value 3) CMD_DEVICE_INFO && strict_eq (get value 4) 2).
  - injection H as <-. unfold parseDeviceInfo.
    destruct (len (slice_from value 5) <? 5); split; reflexivity.
  - destruct (strict_eq (get value 3) CMD_SELECT_EQ);
      [injection H as <-; split; reflexivity|].
    destruct (strict_eq (get value 3) CMD_CUSTOM_EQ);
      [injection H as <-; split; reflexivity|].
    destruct (get value 3); [injection H as <-; split; reflexivity|discriminate H].
Qed.

(** X12. The band arrays keep exactly 8 entries: they have them initially,
    and a slider edit of a band below 8, a reset, a custom preset, a
    custom-EQ send, a device-info request and a notification all preserve
    it. *)
Theorem bands_ok_invariant :
  bands_ok initial
  /\ forall st, bands_ok st ->
       (forall idx value, (idx < 8)%nat -> bands_ok (sliderInput idx value st))
       /\ bands_ok (resetSliders st)
       /\ (forall accepted name bands st',
             applyCustomPreset accepted name bands st = Ok st' -> bands_ok st')
       /\ (forall accepted st', sendCustomEQ accepted st = Ok st' -> bands_ok st')
       /\ (forall accepted st',
             requestDeviceInfo accepted st = Ok st' -> bands_ok st')
       /\ (forall value st', onNotification value st = Ok st' -> bands_ok st').
Proof.
  split; [split; reflexivity|].
  intros st Hok. split; [|split; [|split; [|split; [|split]]]].
  - intros idx value Hi. destruct Hok as [Hg Hq].
    unfold bands_ok, NUM_BANDS in *.
    cbn [FREQUENCIES List.length sliderInput bandGains bandQs] in *.
    rewrite array_set_length by lia. split; assumption.
  - apply resetLoop_bands_ok; [reflexivity|exact Hok].
  - intros accepted name bands st' E.
    destruct (applyCustomPreset_inv _ _ _ _ _ E) as (st1 & st2 & A & C & ->).
    assert (Hok1 : bands_ok st1)
      by (apply (applyBands_bands_ok bands NUM_BANDS 0 st);
          [reflexivity|exact Hok|exact A]).
    exact (sendCommand_bands_ok _ _ _ _ C Hok1).
  - intros accepted st' E.
    destruct (sendCustomEQ_inv _ _ _ E) as (st1 & C & ->).
    exact (sendCommand_bands_ok _ _ _ _ C Hok).
  - intros accepted st' E. unfold requestDeviceInfo in E.
    rewrite buildPacket_null in E. cbn [JS.bind] in E.
    exact (sendCommand_bands_ok _ _ _ _ E Hok).
  - intros value st' E. destruct (onNotification_bands value st st' E) as [Eg Eq].
    unfold bands_ok. rewrite Eg, Eq. exact Hok.
Qed.

Lemma bands_ok_invariant_witness :
  bands_ok (sliderInput 7 255 initial) /\ bands_ok (resetSliders initial).
Proof.
  split.
  - apply (proj1 (proj2 bands_ok_invariant initial (proj1 bands_ok_invariant))).
    lia.
  - apply (proj1 (proj2 (proj2 bands_ok_invariant initial
                           (proj1 bands_ok_invariant)))).
Defined.



(** X13. While the write characteristic is null no command writes a
    frame, whatever the link would answer: the device-info request only
    logs the error, and sending the custom EQ or applying a preset logs the
    error and then its success line all the same. *)
Theorem closed_link_writes_nothing (accepted : bool) (st : state) :
  writeChar st = false ->
  requestDeviceInfo accepted st = Ok (log ErrorNotConnected st)
  /\ sendCustomEQ accepted st
     = Ok (log CustomEqApplied (log ErrorNotConnected st))
  /\ (forall name bands st',
        applyCustomPreset accepted name bands st = Ok st' ->
        written st' = written st
        /\ logEl st' = logEl st ++ [ErrorNotConnected; CustomEqApplied;
                                    CustomPresetApplied name]).
Proof.
  intros W. split; [|split].
  - unfold requestDeviceInfo. rewrite buildPacket_null. cbn [JS.bind].
    unfold sendCommand. rewrite W. reflexivity.
  - apply sendCustomEQ_closed. exact W.
  - intros name bands st' E.
    destruct (applyCustomPreset_inv _ _ _ _ _ E) as (st1 & st2 & A & C & ->).
    destruct (Nat.lt_ge_cases (List.length bands) 8) as [Short|Long].
    + rewrite applyBands_missing in A by (rewrite NUM_BANDS_8; lia).
      discriminate A.
    + destruct (applyBands_ok bands NUM_BANDS 0 st)
        as (st1' & A' & W1 & Wr1 & L1 & _); [rewrite NUM_BANDS_8; lia|].
      rewrite A in A'. injection A' as <-.
      destruct (sendCommand_inv _ _ _ _ C)
        as (_ & _ & _ & _ & [(_ & Wr2 & L2)|(W2 & _)]);
        [|rewrite W1, W in W2; discriminate W2].
      cbn [log written logEl]. rewrite Wr2, L2, Wr1, L1.
      split; [reflexivity|]. rewrite <- !app_assoc. reflexivity.
Qed.

Lemma closed_link_writes_nothing_witness :
  requestDeviceInfo true initial = Ok (log ErrorNotConnected initial)
  /\ sendCustomEQ true initial
     = Ok (log CustomEqApplied (log ErrorNotConnected initial)).
Proof.
  split.
  - apply (proj1 (closed_link_writes_nothing true initial eq_refl)).
  - apply (proj1 (proj2 (closed_link_writes_nothing true initial eq_refl))).
Defined.



(* ====================================================================== *)
(** ** Further facts about the gain and Q encoding *)
(* ====================================================================== *)

Lemma gain_bytes_check :
  forallb (fun b =>
             PrimFloat.Leibniz.eqb (encodeGain (decodeGain (of_Z b))) (of_Z b)
             && (GAIN_MIN_DB <=? decodeGain (of_Z b))%float
             && (decodeGain (of_Z b) <=? GAIN_MAX_DB)%float
             && ((b =? 255)
                 || (decodeGain (of_Z b) <? decodeGain (of_Z (b + 1)))%float))
          bytes256 = true.
Proof. vm_compute. reflexivity. Qed.

(** X15. Every byte b is a fixed point of encodeGain after decodeGain,
    its decoded gain lies between GAIN_MIN_DB (-12.0) and GAIN_MAX_DB
    (13.5), and decodeGain is strictly increasing on the bytes. *)
Theorem encodeGain_decodeGain (b : Z) :
  0 <= b <= 255 ->
  encodeGain (decodeGain (of_Z b)) = of_Z b
  /\ (GAIN_MIN_DB <=? decodeGain (of_Z b))%float = true
  /\ (decodeGain (of_Z b) <=? GAIN_MAX_DB)%float = true
  /\ (b < 255 ->
      (decodeGain (of_Z b) <? decodeGain (of_Z (b + 1)))%float = true).
Proof.
  intros H. pose proof gain_bytes_check as C.
  rewrite forallb_forall in C. specialize (C b (bytes256_spec b H)).
  apply andb_prop in C. destruct C as [C C4].
  apply andb_prop in C. destruct C as [C C3].
  apply andb_prop in C. destruct C as [C1 C2].
  split; [apply Leibniz.eqb_spec; exact C1|].
  split; [exact C2|]. split; [exact C3|].
  intros Hb. destruct (Z.eqb_spec b 255); [lia|]. exact C4.
Qed.

Lemma encodeGain_decodeGain_witness :
  encodeGain (decodeGain (of_Z 137)) = of_Z 137
  /\ (GAIN_MIN_DB <=? decodeGain (of_Z 137))%float = true
  /\ (decodeGain (of_Z 137) <=? GAIN_MAX_DB)%float = true
  /\ (137 < 255 ->
      (decodeGain (of_Z 137) <? decodeGain (of_Z (137 + 1)))%float = true).
Proof. apply (encodeGain_decodeGain 137). lia. Defined.

Lemma encodeQ_tenths_check :
  forallb (fun k => PrimFloat.Leibniz.eqb (encodeQ (of_Z k / 10)) (of_Z k))
          bytes256 = true.
Proof. vm_compute. reflexivity. Qed.

(** X16. The Q conversion of [applyCustomPreset] yields a value in
    [0, 255] for every Q that is not NaN, and for the binary64 nearest to
    k/10, 0 <= k <= 255, it yields k. *)
Theorem encodeQ_clamped (qReal : float) :
  (is_nan qReal = false ->
   (0 <=? encodeQ qReal)%float = true /\ (encodeQ qReal <=? 255)%float = true)
  /\ (forall k, 0 <= k <= 255 -> qReal = (of_Z k / 10)%float ->
      encodeQ qReal = of_Z k).
Proof.
  split.
  - intros N. unfold encodeQ. apply clamp_range.
    apply Math_round_not_nan. apply mul_not_nan; [exact N|exact finite_10].
  - intros k Hk ->. pose proof encodeQ_tenths_check as C.
    rewrite forallb_forall in C. apply Leibniz.eqb_spec. apply C.
    apply bytes256_spec. exact Hk.
Qed.

Lemma encodeQ_clamped_witness :
  ((0 <=? encodeQ 24.95)%float = true /\ (encodeQ 24.95 <=? 255)%float = true)
  /\ encodeQ (of_Z 7 / 10) = of_Z 7.
Proof.
  split.
  - apply (proj1 (encodeQ_clamped 24.95%float)). reflexivity.
  - apply (proj2 (encodeQ_clamped (of_Z 7 / 10)%float) 7); [lia|reflexivity].
Defined.

(* ====================================================================== *)
(** ** The table of custom presets *)
(* ====================================================================== *)

Lemma CUSTOM_PRESETS_check :
  forallb (fun p =>
             Nat.eqb (List.length (Preset.bands p)) 8
             && forallb (fun gq =>
                  PrimFloat.Leibniz.eqb (clampGain (fst gq)) (fst gq)
                  && PrimFloat.Leibniz.eqb (decodeGain (encodeGain (fst gq))) (fst gq)
                  && PrimFloat.Leibniz.eqb (encodeQ (snd gq))
                                           (Math_round (snd gq * 10))
                  && (1 <=? encodeQ (snd gq))%float)
                  (Preset.bands p))
          CUSTOM_PRESETS = true.
Proof. vm_compute. reflexivity. Qed.

(** X17. Every entry of [CUSTOM_PRESETS] has exactly 8 bands, so applying
    it never throws a TypeError and returns whenever the link is closed or
    accepts the write; none of its gains is changed by the clamp and each
    is recovered exactly by decodeGain from its encoding; none of its Q
    values is clamped and each encodes to at least 1. *)
Theorem CUSTOM_PRESETS_well_formed (p : Preset.t) :
  In p CUSTOM_PRESETS ->
  List.length (Preset.bands p) = 8%nat
  /\ (forall accepted st, applyPreset accepted p st <> Throw TypeError)
  /\ (forall accepted st,
        writeChar st = false \/ accepted = true ->
        exists st', applyPreset accepted p st = Ok st')
  /\ Forall (fun gq =>
               clampGain (fst gq) = fst gq
               /\ decodeGain (encodeGain (fst gq)) = fst gq
               /\ encodeQ (snd gq) = Math_round (snd gq * 10)
               /\ (1 <=? encodeQ (snd gq))%float = true)
            (Preset.bands p).
Proof.
  intros Hp. pose proof CUSTOM_PRESETS_check as C.
  rewrite forallb_forall in C. specialize (C p Hp).
  apply andb_prop in C. destruct C as [C1 C2].
  apply Nat.eqb_eq in C1. split; [exact C1|].
  assert (Run : forall accepted st,
            exists st1,
              writeChar st1 = writeChar st
              /\ applyPreset accepted p st
                 = (st2 <- sendCustomEQ accepted st1 ;;
                    Ok (log (CustomPresetApplied (Preset.name p)) st2))).
  { intros accepted st. unfold applyPreset, applyCustomPreset.
    destruct (applyBands_ok (Preset.bands p) NUM_BANDS 0 st)
      as (st1 & A & W1 & _); [rewrite C1; reflexivity|].
    exists st1. split; [exact W1|]. rewrite A. reflexivity. }
  split; [|split].
  - intros accepted st. destruct (Run accepted st) as (st1 & W1 & ->).
    rewrite sendCustomEQ_eq. unfold sendCommand, writeValueWithoutResponse.
    destruct (negb (writeChar st1)); [discriminate|].
    destruct accepted; discriminate.
  - intros accepted st L. destruct (Run accepted st) as (st1 & W1 & ->).
    destruct (sendCustomEQ_returns accepted st1) as [st2 S];
      [rewrite W1; exact L|].
    rewrite S. eexists. reflexivity.
  - apply Forall_forall. intros gq Hin.
    rewrite forallb_forall in C2. specialize (C2 gq Hin).
    apply andb_prop in C2. destruct C2 as [C2 Q1].
    apply andb_prop in C2. destruct C2 as [C2 Q0].
    apply andb_prop in C2. destruct C2 as [G0 G1].
    repeat split; try (apply Leibniz.eqb_spec; assumption). exact Q1.
Qed.

Lemma CUSTOM_PRESETS_well_formed_witness :
  List.length (Preset.bands (nth 16 CUSTOM_PRESETS (Preset.Build "" false []))) = 8%nat.
Proof.
  apply (CUSTOM_PRESETS_well_formed (nth 16 CUSTOM_PRESETS (Preset.Build "" false []))).
  do 16 right. left. reflexivity.
Defined.

(* ====================================================================== *)
(** ** Facts about the hexadecimal dump *)
(* ====================================================================== *)

Lemma hex_byte_check :
  forallb (fun a =>
             Nat.eqb (String.length (padStart (toString16 a) 2 "0"%char)) 2
             && forallb (fun b =>
                  implb (String.eqb (padStart (toString16 a) 2 "0"%char)
                                    (padStart (toString16 b) 2 "0"%char))
                        (a =? b))
                  bytes256)
          bytes256 = true.
Proof. vm_compute. reflexivity. Qed.

Lemma hex_byte_length (b : Z) :
  byte b -> String.length (padStart (toString16 b) 2 "0"%char) = 2%nat.
Proof.
  intros H. pose proof hex_byte_check as C. rewrite forallb_forall in C.
  specialize (C b (bytes256_spec b ltac:(unfold byte in H; lia))).
  apply andb_prop in C. destruct C as [C _]. apply Nat.eqb_eq. exact C.
Qed.

Lemma hex_byte_inj (a b : Z) :
  byte a -> byte b ->
  padStart (toString16 a) 2 "0"%char = padStart (toString16 b) 2 "0"%char ->
  a = b.
Proof.
  intros Ha Hb E. pose proof hex_byte_check as C. rewrite forallb_forall in C.
  specialize (C a (bytes256_spec a ltac:(unfold byte in Ha; lia))).
  apply andb_prop in C. destruct C as [_ C]. rewrite forallb_forall in C.
  specialize (C b (bytes256_spec b ltac:(unfold byte in Hb; lia))).
  rewrite E, String.eqb_refl in C. cbn [implb] in C. apply Z.eqb_eq. exact C.
Qed.

Lemma hexStr_cons (b c : Z) (rest : Uint8Array) :
  hexStr (b :: c :: rest)
  = (padStart (toString16 b) 2 "0"%char ++ " " ++ hexStr (c :: rest))%string.
Proof. reflexivity. Qed.

Lemma hexStr_length (bytes : Uint8Array) :
  Forall byte bytes ->
  String.length (hexStr bytes) = (3 * List.length bytes - 1)%nat.
Proof.
  induction 1 as [|b rest Hb Hrest IH]; [reflexivity|].
  destruct rest as [|c rest].
  - cbn [List.length]. change (hexStr [b]) with (padStart (toString16 b) 2 "0"%char).
    rewrite hex_byte_length by exact Hb. reflexivity.
  - rewrite hexStr_cons, !length_append, IH, hex_byte_length by exact Hb.
    cbn [List.length String.length]. lia.
Qed.

Lemma append_inj_length (s1 s2 t1 t2 : string) :
  String.length s1 = String.length s2 ->
  (s1 ++ t1 = s2 ++ t2)%string -> s1 = s2 /\ t1 = t2.
Proof.
  revert s2. induction s1 as [|a s1 IH]; intros [|b s2] L E;
    cbn [String.length] in L; try discriminate L.
  - split; [reflexivity|exact E].
  - cbn [append] in E. injection E as -> E. injection L as L.
    destruct (IH s2 L E) as [-> ->]. split; reflexivity.
Qed.

(** X18. On byte arrays [hexStr] gives two hexadecimal digits per byte
    separated by single spaces, 3n - 1 characters for n > 0 bytes and none
    for the empty array, and it is injective: equal dumps come from equal
    arrays. *)
Theorem hexStr_injective (a b : Uint8Array) :
  Forall byte a -> Forall byte b ->
  (String.length (hexStr a) = 3 * List.length a - 1)%nat
  /\ (hexStr a = hexStr b -> a = b).
Proof.
  intros Ha Hb. split; [apply hexStr_length; exact Ha|].
  intros E.
  assert (L : List.length a = List.length b).
  { apply (f_equal String.length) in E.
    rewrite !hexStr_length in E by assumption.
    destruct a, b; cbn [List.length] in *; lia. }
  revert b Hb E L. induction Ha as [|x a Hx Ha IH]; intros b Hb E L.
  - destruct b; [reflexivity|discriminate L].
  - destruct b as [|y b]; [discriminate L|].
    inversion Hb as [|? ? Hy Hb']; subst.
    injection L as L.
    destruct a as [|x' a], b as [|y' b]; try discriminate L.
    + f_equal. apply hex_byte_inj; assumption.
    + rewrite !hexStr_cons in E.
      apply append_inj_length in E;
        [|rewrite !hex_byte_length by assumption; reflexivity].
      destruct E as [E1 E2]. cbn [append] in E2. injection E2 as E2.
      f_equal; [apply hex_byte_inj; assumption|].
      apply IH; [exact Hb'|exact E2|exact L].
Qed.

Lemma hexStr_injective_witness :
  String.length (hexStr [0x51; 0x0a])
  = (3 * List.length [0x51; 0x0a]%Z - 1)%nat
  /\ (hexStr [0x51; 0x0a] = hexStr [0x51; 0x0a] -> [0x51; 0x0a] = [0x51; 0x0a]).
Proof.
  apply (hexStr_injective [0x51; 0x0a] [0x51; 0x0a]);
    repeat constructor; unfold byte; lia.
Defined.
